(** * AI Pictionary: the Ollama client ([lib/ollama]) and its reply parser

    A shallow embedding of [guessDrawing] and its helpers
    ([stripDataUriPrefix], [extractResponseContent], [extractGuess],
    [extractConfidence]) together with the properties the specification
    states about them.

    Conventions of the embedding.

    - A JavaScript string is a [string]: a sequence of code units, here
      the code units U+0000..U+00FF (ASCII and Latin-1).  On that range
      [trim], [toLowerCase], [split], [includes] and the regular
      expressions below are written out exactly as ECMAScript defines them.
    - A JavaScript number is kept where the arithmetic of the source is
      exact on it: [total_duration] is a safe integer (an integer of
      magnitude below 2^53), times and statuses are natural numbers.
    - A function that can [throw] returns a [Completion]; what is thrown is
      a [Thrown] value that records exactly what the [catch] block of
      [guessDrawing] inspects.
    - The platform ([fetch], [AbortController], [setTimeout]) is a parameter
      of [guessDrawing]: it says when and how the pending request would
      settle if nobody aborted it. *)

From Stdlib Require Import Bool List ZArith NArith Lia.
From Stdlib Require QArith.
From Stdlib Require Import Ascii String DecimalString.
Import ListNotations.

Local Open Scope string_scope.
Local Open Scope bool_scope.

(* ===================================================================== *)
(** ** JavaScript strings *)
(* ===================================================================== *)

Module JsString.

(** ECMAScript [WhiteSpace] and [LineTerminator] code points below U+0100:
    TAB, LF, VT, FF, CR, SPACE and NO-BREAK SPACE.  This is the set removed
    by [String.prototype.trim] and matched by the class escape [\s]. *)
Definition isWhiteSpace (c : ascii) : bool :=
  let n := N_of_ascii c in
  ((9 <=? n) && (n <=? 13) || (n =? 32) || (n =? 160))%N.

(** [toLowerCase] on one code unit: A-Z and the Latin-1 capitals
    U+00C0..U+00DE (without the multiplication sign U+00D7) move up by 32. *)
Definition toLowerChar (c : ascii) : ascii :=
  let n := N_of_ascii c in
  if ((65 <=? n) && (n <=? 90)
      || (192 <=? n) && (n <=? 222) && negb (n =? 215))%N
  then ascii_of_N (n + 32) else c.

Fixpoint toLowerCase (s : string) : string :=
  match s with
  | EmptyString => EmptyString
  | String c s' => String (toLowerChar c) (toLowerCase s')
  end.

Fixpoint trimStart (s : string) : string :=
  match s with
  | EmptyString => EmptyString
  | String c s' => if isWhiteSpace c then trimStart s' else s
  end.

Fixpoint trimEnd (s : string) : string :=
  match s with
  | EmptyString => EmptyString
  | String c s' =>
      match trimEnd s' with
      | EmptyString => if isWhiteSpace c then EmptyString else String c EmptyString
      | t => String c t
      end
  end.

Definition trim (s : string) : string := trimEnd (trimStart s).

(** [s.startsWith(p)] *)
Fixpoint startsWith (s p : string) : bool :=
  match p, s with
  | EmptyString, _ => true
  | String _ _, EmptyString => false
  | String a p', String b s' => Ascii.eqb a b && startsWith s' p'
  end.

(** [s.includes(sub)] *)
Fixpoint includes (s sub : string) : bool :=
  startsWith s sub ||
  match s with
  | EmptyString => false
  | String _ s' => includes s' sub
  end.

(** [s.split(sep)] for a one-character separator: never the empty array,
    [''.split(sep)] is [['']]. *)
Fixpoint split (sep : ascii) (s : string) : list string :=
  match s with
  | EmptyString => [EmptyString]
  | String c s' =>
      if Ascii.eqb c sep then EmptyString :: split sep s'
      else match split sep s' with
           | h :: t => String c h :: t
           | [] => [String c EmptyString]
           end
  end.

(** Truthiness of a string: [Boolean(s)], [!s], [if (s)]. *)
Definition truthy (s : string) : bool :=
  match s with EmptyString => false | String _ _ => true end.

(** Template-literal rendering of a non-negative integer: [`${n}`]. *)
Definition ofN (n : N) : string := NilZero.string_of_uint (N.to_uint n).

Definition LF : ascii := ascii_of_N 10.
Definition nl : string := String LF EmptyString.

End JsString.

Import JsString.

(* ===================================================================== *)
(** ** The regular expressions of the module *)
(* ===================================================================== *)

(** The four regular expressions of the source are anchored sequences of
    one-character matchers, some of them under a greedy [*] or [+].  [exec]
    is the ECMAScript backtracking matcher restricted to that fragment. *)
Module Regex.

Inductive CharSet : Type :=
| Chr (c : ascii)                 (* a pattern character *)
| Space                           (* \s *)
| AnyOf (cs : list ascii)         (* [...] *)
| NoneOf (cs : list ascii).       (* [^...] *)

Inductive Term : Type :=
| Once (a : CharSet)
| ZeroOrMore (a : CharSet)        (* a* , greedy *)
| OneOrMore (a : CharSet).        (* a+ , greedy *)

Definition Pattern := list Term.

(** [Canonicalize] for a pattern without the [u] flag: the upper-case
    mapping, except that a code unit of 128 or more is never mapped below
    128.  On U+0000..U+00FF this sends a-z and U+00E0..U+00FE (without the
    division sign U+00F7) down by 32; U+00B5 and U+00FF map outside the
    range to characters no other code unit here maps to, and U+00DF has no
    one-character upper case. *)
Definition canonicalize (c : ascii) : ascii :=
  let n := N_of_ascii c in
  if ((97 <=? n) && (n <=? 122)
      || (224 <=? n) && (n <=? 254) && negb (n =? 247))%N
  then ascii_of_N (n - 32) else c.

Definition sameChar (ignoreCase : bool) (p c : ascii) : bool :=
  if ignoreCase then Ascii.eqb (canonicalize p) (canonicalize c)
  else Ascii.eqb p c.

Definition accepts (ignoreCase : bool) (a : CharSet) (c : ascii) : bool :=
  match a with
  | Chr p => sameChar ignoreCase p c
  | Space => isWhiteSpace c
  | AnyOf cs => existsb (fun p => sameChar ignoreCase p c) cs
  | NoneOf cs => negb (existsb (fun p => sameChar ignoreCase p c) cs)
  end.

(** [exec i re s]: match [re] at the start of [s]; on success the text
    after the match.  Greedy quantifiers take as much as they can and give
    characters back one at a time when the rest of the pattern fails.

    The loop of a greedy quantifier: take accepted characters as long as
    there are any, then run the rest of the pattern [k]; when [k] fails give
    the last character back and try again. *)
Fixpoint greedy (accept : ascii -> bool) (k : string -> option string)
    (s : string) : option string :=
  match s with
  | String c s' =>
      if accept c then
        match greedy accept k s' with
        | Some r => Some r
        | None => k s
        end
      else k s
  | EmptyString => k EmptyString
  end.

Fixpoint exec (i : bool) (re : Pattern) : string -> option string :=
  match re with
  | [] => fun s => Some s
  | Once a :: re' =>
      fun s =>
        match s with
        | String c s' => if accepts i a c then exec i re' s' else None
        | EmptyString => None
        end
  | ZeroOrMore a :: re' => greedy (accepts i a) (exec i re')
  | OneOrMore a :: re' =>
      fun s =>
        match s with
        | String c s' =>
            if accepts i a c then greedy (accepts i a) (exec i re') s'
            else None
        | EmptyString => None
        end
  end.

(** A run of pattern characters. *)
Fixpoint lit (s : string) : Pattern :=
  match s with
  | EmptyString => []
  | String c s' => Once (Chr c) :: lit s'
  end.

(** [s.replace(/^re/flags, '')] without the [g] and [m] flags: the anchor
    only holds at index 0, so at most the match at the start is removed. *)
Definition removePrefix (i : bool) (re : Pattern) (s : string) : string :=
  match exec i re s with
  | Some rest => rest
  | None => s
  end.

(** The language of a pattern, for stating what [exec] finds. *)
Inductive Matches (i : bool) : Pattern -> string -> Prop :=
| M_nil : Matches i [] EmptyString
| M_once a re c p :
    accepts i a c = true -> Matches i re p ->
    Matches i (Once a :: re) (String c p)
| M_star_stop a re p :
    Matches i re p -> Matches i (ZeroOrMore a :: re) p
| M_star_more a re c p :
    accepts i a c = true -> Matches i (ZeroOrMore a :: re) p ->
    Matches i (ZeroOrMore a :: re) (String c p)
| M_plus a re c p :
    accepts i a c = true -> Matches i (ZeroOrMore a :: re) p ->
    Matches i (OneOrMore a :: re) (String c p).

End Regex.

Import Regex.

(* ===================================================================== *)
(** ** Types of the module *)
(* ===================================================================== *)

Inductive Confidence : Type := high | medium | low.

Definition confidenceText (c : Confidence) : string :=
  match c with high => "high" | medium => "medium" | low => "low" end.

Record GuessResult : Type := {
  guess : string;
  confidence : Confidence;
  duration_ms : Z
}.

(** [class OllamaError extends Error] *)
Record OllamaError : Type := {
  code : string;
  message : string
}.

(** What the platform rejects or throws with, as far as the [catch] block
    of [guessDrawing] can tell such values apart.  [OllamaError] is a class
    of this module, so none of them is an instance of it. *)
Inductive PlatformError : Type :=
| ErrorObject (isTypeError : bool) (name msg : string)
    (* an [Error]: [instanceof TypeError], [.name], [.message] *)
| NonError (rendered : string).
    (* not an [Error]; [rendered] is [String(error)] *)

(** What a [throw] inside [guessDrawing] carries. *)
Inductive Thrown : Type :=
| ThrownOllamaError (e : OllamaError)      (* [error instanceof OllamaError] *)
| ThrownByPlatform (x : PlatformError).

(** How a promise of the platform settles. *)
Inductive Settlement (A : Type) : Type :=
| Fulfilled (a : A)
| Rejected (x : PlatformError).

Arguments Fulfilled {A} a.
Arguments Rejected {A} x.

(** How a piece of the asynchronous function ends: with a value, with a
    [throw], or not at all when it awaits a promise that never settles. *)
Inductive Completion (A : Type) : Type :=
| Return (a : A)
| Throw (t : Thrown)
| Hangs.

Arguments Return {A} a.
Arguments Throw {A} t.
Arguments Hangs {A}.

Definition bind {A B : Type} (c : Completion A) (k : A -> Completion B)
  : Completion B :=
  match c with
  | Return a => k a
  | Throw t => Throw t
  | Hangs => Hangs
  end.

Notation "x <- c ;; k" := (bind c (fun x => k))
  (at level 61, c at next level, right associativity).

(** [await] on a promise that settles. *)
Definition await {A : Type} (s : Settlement A) : Completion A :=
  match s with
  | Fulfilled a => Return a
  | Rejected x => Throw (ThrownByPlatform x)
  end.

(** [await] on a promise that may stay pending for ever ([None]). *)
Definition awaitPending {A : Type} (s : option (Settlement A)) : Completion A :=
  match s with
  | Some s => await s
  | None => Hangs
  end.

(** [interface OllamaResponseMessage]; [content] is read through [?.], so
    its absence is part of what the code handles. *)
Record OllamaResponseMessage : Type := {
  content : option string
}.

(** The number in [total_duration], a count of nanoseconds.  The model
    keeps the numbers on which [Math.round(n / 1_000_000)] is exact
    integer arithmetic, the safe integers: the integers of magnitude below
    2^53 ([Number.MAX_SAFE_INTEGER] is 2^53 - 1, about 104 days in
    nanoseconds).  A larger count or a count with a fraction is outside
    the model. *)
Record SafeInteger : Type := {
  intval : Z;
  intrange : (Z.abs intval <? 9007199254740992)%Z = true
}.

(** [interface OllamaResponse] *)
Record OllamaResponse : Type := {
  model : string;
  reply_message : option OllamaResponseMessage;   (* message? *)
  response : option string;                       (* response? *)
  done : option bool;                             (* done? *)
  total_duration : option SafeInteger             (* total_duration?, ns *)
}.

(** [interface OllamaErrorResponse]; the code tests [errorData.error] for
    truthiness, [None] is a body without that field. *)
Record OllamaErrorResponse : Type := {
  error : option string
}.

(* ===================================================================== *)
(** ** The reply parser *)
(* ===================================================================== *)

(** [/^data:[^;]+;base64,/] *)
Definition dataUriRegex : Pattern :=
  (lit "data:" ++ [OneOrMore (NoneOf [";"%char])] ++ lit ";base64,")%list.

Definition stripDataUriPrefix (base64 : string) : string :=
  removePrefix false dataUriRegex base64.

(** [/^guess\s*[:\-]\s*/i] *)
Definition guessPrefixRegex : Pattern :=
  (lit "guess"
   ++ [ZeroOrMore Space; Once (AnyOf [":"%char; "-"%char]); ZeroOrMore Space])%list.

(** [/^answer\s*[:\-]\s*/i] *)
Definition answerPrefixRegex : Pattern :=
  (lit "answer"
   ++ [ZeroOrMore Space; Once (AnyOf [":"%char; "-"%char]); ZeroOrMore Space])%list.

(** [/^it\s+is\s+/i] *)
Definition itIsRegex : Pattern :=
  (lit "it" ++ [OneOrMore Space] ++ lit "is" ++ [OneOrMore Space])%list.

Definition extractResponseContent (data : OllamaResponse) : string :=
  let messageContent :=
    match reply_message data with
    | Some m => match content m with Some c => trim c | None => "" end
    | None => ""
    end in
  if truthy messageContent then messageContent
  else
    let fallbackResponse :=
      match response data with Some r => trim r | None => "" end in
    if truthy fallbackResponse then fallbackResponse else "".

(** The test both scans apply to a line. *)
Definition mentions (keyword line : string) : bool :=
  includes (toLowerCase line) keyword.

Definition looksLikeConfidence (line : string) : bool :=
  mentions "high" line || mentions "medium" line || mentions "low" line.

Definition cleanLine (line : string) : string :=
  trim (removePrefix true itIsRegex
         (removePrefix true answerPrefixRegex
            (removePrefix true guessPrefixRegex line))).

Fixpoint extractGuess (lines : list string) : string :=
  match lines with
  | [] => ""
  | line :: rest =>
      if looksLikeConfidence line then extractGuess rest
      else
        let cleaned := cleanLine line in
        if truthy cleaned then cleaned else extractGuess rest
  end.

Fixpoint extractConfidence (lines : list string) : option Confidence :=
  match lines with
  | [] => None
  | line :: rest =>
      if mentions "high" line then Some high
      else if mentions "medium" line then Some medium
      else if mentions "low" line then Some low
      else extractConfidence rest
  end.

(** [rawContent.split('\n').map((l) => l.trim()).filter(Boolean)] *)
Definition candidateLines (rawContent : string) : list string :=
  filter truthy (map trim (split LF rawContent)).

(** [extractConfidence(lines) || 'medium'] *)
Definition resolveConfidence (lines : list string) : Confidence :=
  match extractConfidence lines with
  | Some c => c
  | None => medium
  end.

(** [Math.round((data.total_duration ?? 0) / 1_000_000)].  [Math.round]
    rounds to the nearest integer and halves towards plus infinity.  The
    division is one of doubles: for a safe integer [ns] the quotient is
    below 2^34, where neighbouring doubles are at most 2^-19 apart, so the
    double quotient is less than 10^-6 away from the exact one; the exact
    one is a multiple of 10^-6, so both lie on the same side of every
    half-integer (or both on it) and [Math.round] yields the floor of
    [(ns + 500000) / 1000000]. *)
Definition durationMs (data : OllamaResponse) : Z :=
  let ns := match total_duration data with
            | Some n => intval n
            | None => 0%Z
            end in
  ((ns + 500000) / 1000000)%Z.

Definition emptyGuessError : OllamaError :=
  {| code := "EMPTY_GUESS"; message := "Ollama returned empty guess" |}.

(** The part of [guessDrawing] that runs on the decoded body of a
    successful exchange: from [extractResponseContent(data)] to the
    [return] of the result. *)
Definition normalizeResponse (data : OllamaResponse) : Completion GuessResult :=
  let rawContent := extractResponseContent data in
  let duration := durationMs data in
  if negb (truthy rawContent) then
    Return {| guess := "unclear"; confidence := low; duration_ms := duration |}
  else
    let lines := candidateLines rawContent in
    let g := extractGuess lines in
    let c := resolveConfidence lines in
    if negb (truthy g) then Throw (ThrownOllamaError emptyGuessError)
    else Return {| guess := g; confidence := c; duration_ms := duration |}.

(** A body that carries [text] in [message.content] and nothing else. *)
Definition replyWith (text : string) : OllamaResponse :=
  {| model := "qwen3-vl";
     reply_message := Some {| content := Some text |};
     response := None;
     done := Some true;
     total_duration := None |}.

(* ===================================================================== *)
(** ** The request *)
(* ===================================================================== *)

(** [interface OllamaMessage] *)
Record OllamaMessage : Type := {
  role : string;
  msg_content : string;            (* content *)
  images : option (list string)    (* images? *)
}.

(** [interface OllamaRequestOptions] *)
Record OllamaRequestOptions : Type := {
  temperature : QArith_base.Q;
  num_predict : N
}.

(** [interface OllamaRequest] *)
Record OllamaRequest : Type := {
  req_model : string;              (* model *)
  messages : list OllamaMessage;
  stream : bool;
  options : OllamaRequestOptions;
  keep_alive : string
}.

Definition dq : string := String (ascii_of_N 34) EmptyString.

Definition prompt : string :=
  "You are an expert at identifying drawings and sketches. Look at the image and guess what object or thing has been drawn."
  ++ nl ++ nl
  ++ "Respond with EXACTLY two lines:" ++ nl
  ++ "1. First line: The single word or short phrase of what is drawn (e.g., "
  ++ dq ++ "cat" ++ dq ++ ", " ++ dq ++ "house" ++ dq ++ ", " ++ dq ++ "tree" ++ dq ++ ")" ++ nl
  ++ "2. Second line: Your confidence level as one word - either "
  ++ dq ++ "high" ++ dq ++ ", " ++ dq ++ "medium" ++ dq ++ ", or " ++ dq ++ "low" ++ dq
  ++ nl ++ nl
  ++ "Do not include any other text, explanation, or punctuation. Just the guess and confidence level.".

Definition buildRequest (base64Image : string) : OllamaRequest :=
  let cleanBase64 := stripDataUriPrefix base64Image in
  {| req_model := "qwen3-vl";
     messages := [ {| role := "user";
                      msg_content := prompt;
                      images := Some [cleanBase64] |} ];
     stream := false;
     options := {| temperature := QArith_base.Qmake 3 10; num_predict := 200 |};
     keep_alive := "15m" |}.

(* ===================================================================== *)
(** ** The platform: [fetch], [AbortController], [setTimeout] *)
(* ===================================================================== *)

(** The second argument of [fetch]; [body] is the request before
    [JSON.stringify], the [signal] is accounted for by [awaitFetch]. *)
Record FetchInit : Type := {
  method : string;
  headers : list (string * string);
  body : OllamaRequest
}.

(** [response.json()] yields one decoded value, which the source reads
    through two casts: [as OllamaErrorResponse] when the status is not ok
    and [as OllamaResponse] when it is.  A body that is not JSON rejects
    with a [SyntaxError]; a decoded value on which the property accesses of
    the source fail (a [null] body, a [content] that is not a string) throws
    a [TypeError] at the same place, both are rejections of [json] here. *)
Record DecodedJson : Type := {
  asOllamaErrorResponse : OllamaErrorResponse;
  asOllamaResponse : OllamaResponse
}.

(** The part of a [Response] that the source reads.  [json] is how the
    promise of [response.json()] settles, [None] when the body never
    arrives: no timer runs while the body is read. *)
Record HttpResponse : Type := {
  status : N;
  json : option (Settlement DecodedJson)
}.

(** [response.ok]: the status is in the range 200-299. *)
Definition ok (r : HttpResponse) : bool :=
  ((200 <=? status r) && (status r <=? 299))%N.

(** A pending promise left alone: after how many milliseconds it settles
    ([None]: never) and how. *)
Record Pending (A : Type) : Type := {
  settlesAfter : option N;
  settlement : Settlement A
}.

Arguments settlesAfter {A} _.
Arguments settlement {A} _.

Record Platform : Type := {
  fetch : string -> FetchInit -> Pending HttpResponse;
  (** which macrotask runs first when the timer and the response fall due
      in the same millisecond *)
  timerFirstOnTie : bool
}.

(** What [fetch] rejects with once its signal is aborted: a [DOMException]
    named [AbortError], an [Error] that is not a [TypeError]. *)
Definition abortError : PlatformError :=
  ErrorObject false "AbortError" "This operation was aborted".

(** Record of one [await fetch(..., { signal })] under
    [setTimeout(() => controller.abort(), delay)]. *)
Record Awaited : Type := {
  settled : Settlement HttpResponse;
  cancelled : bool   (* the timer fired while the request was pending and
                        [controller.abort()] cancelled it *)
}.

(** The timer and the request race.  When the request settles first the
    [await] continues with its settlement; otherwise the timer callback
    aborts the signal and [fetch] rejects with [abortError]. *)
Definition awaitFetch (p : Platform) (delay : N) (pending : Pending HttpResponse)
  : Awaited :=
  let requestFirst :=
    match settlesAfter pending with
    | Some t => ((t <? delay) || (t =? delay) && negb (timerFirstOnTie p))%N
    | None => false
    end in
  if requestFirst
  then {| settled := settlement pending; cancelled := false |}
  else {| settled := Rejected abortError; cancelled := true |}.

(** [clearTimeout(timeoutId)] is the statement after the [await]: it runs
    when the [await] returns a response and is skipped when the [await]
    throws, since control then goes to the [catch] block, which does not
    clear the timer. *)
Definition timerCleared (a : Awaited) : bool :=
  match settled a with
  | Fulfilled _ => true
  | Rejected _ => false
  end.

(** Whether the timer callback runs [controller.abort()].  A timer that
    is not cleared fires when its delay is over: while the request is
    pending, and then the abort cancels it, or, when [fetch] had rejected
    before, on a request that is already over. *)
Definition abortCalled (a : Awaited) : bool := negb (timerCleared a).

(* ===================================================================== *)
(** ** [guessDrawing] *)
(* ===================================================================== *)

Definition timeoutMs : N := 120000.

Definition endpoint : string := "http://localhost:11434/api/chat".

Definition fetchInit (request : OllamaRequest) : FetchInit :=
  {| method := "POST";
     headers := [("Content-Type", "application/json")];
     body := request |}.

(** The inner [try]/[catch] of the branch [if (!response.ok)]: the text
    of the body's [error] field when the body decodes and the field is
    truthy, the status line otherwise. *)
Definition readErrorMessage (r : HttpResponse) : Completion string :=
  let errorMessage := "Ollama API returned status " ++ ofN (status r) in
  match json r with
  | Some (Fulfilled errorData) =>
      match error (asOllamaErrorResponse errorData) with
      | Some e => Return (if truthy e then e else errorMessage)
      | None => Return errorMessage
      end
  | Some (Rejected _) => Return errorMessage
  | None => Hangs
  end.

(** The error thrown for a status that is not ok. *)
Definition httpFailure (status : N) (errorMessage : string) : OllamaError :=
  if (status =? 404)%N then
    {| code := "MODEL_NOT_FOUND";
       message := "Ollama model 'qwen3-vl' not found: " ++ errorMessage |}
  else if (status =? 500)%N then
    {| code := "OLLAMA_SERVER_ERROR";
       message := "Ollama server error: " ++ errorMessage |}
  else
    {| code := "OLLAMA_API_ERROR";
       message := "Ollama API error: " ++ errorMessage |}.

(** The exchange of one call: [fetch] under the 120 s timer. *)
Definition exchange (p : Platform) (request : OllamaRequest) : Awaited :=
  awaitFetch p timeoutMs (fetch p endpoint (fetchInit request)).

(** The [try] block. *)
Definition tryBlock (p : Platform) (request : OllamaRequest)
  : Completion GuessResult :=
  response <- await (settled (exchange p request)) ;;
  if negb (ok response) then
    errorMessage <- readErrorMessage response ;;
    Throw (ThrownOllamaError (httpFailure (status response) errorMessage))
  else
    decoded <- awaitPending (json response) ;;
    normalizeResponse (asOllamaResponse decoded).

(** The [catch (error)] block: what it throws in place of [error]. *)
Definition catchBlock (error : Thrown) : OllamaError :=
  match error with
  | ThrownOllamaError e => e
  | ThrownByPlatform (ErrorObject isTypeError name msg) =>
      if String.eqb name "AbortError" then
        {| code := "TIMEOUT";
           message := "Ollama API request timed out after 120 seconds" |}
      else if isTypeError then
        {| code := "NETWORK_ERROR";
           message := "Failed to connect to Ollama API: " ++ msg |}
      else
        {| code := "UNKNOWN_ERROR"; message := "Unexpected error: " ++ msg |}
  | ThrownByPlatform (NonError rendered) =>
      {| code := "UNKNOWN_ERROR"; message := "Unexpected error: " ++ rendered |}
  end.

Definition guessDrawing (p : Platform) (base64Image : string)
  : Completion GuessResult :=
  let request := buildRequest base64Image in
  match tryBlock p request with
  | Return result => Return result
  | Throw error => Throw (ThrownOllamaError (catchBlock error))
  | Hangs => Hangs
  end.

(** Whether the timer that the run of [guessDrawing] sets calls
    [controller.abort()], during the run or after it. *)
Definition requestAborted (p : Platform) (base64Image : string) : bool :=
  abortCalled (exchange p (buildRequest base64Image)).

(** Whether the timer cancelled the request while it was in flight. *)
Definition requestCancelled (p : Platform) (base64Image : string) : bool :=
  cancelled (exchange p (buildRequest base64Image)).

(* ===================================================================== *)
(** ** The word list of the game ([GameControls]) *)
(* ===================================================================== *)

Definition WORD_LIST : list string :=
  [ "cat"; "dog"; "house"; "tree"; "sun"; "moon"; "star"; "car"; "fish"; "bird";
    "flower"; "mountain"; "boat"; "hat"; "shoe"; "book"; "clock"; "chair"; "table"; "lamp";
    "apple"; "banana"; "pizza"; "cake"; "ice cream"; "guitar"; "piano"; "drum"; "rocket"; "airplane";
    "bicycle"; "umbrella"; "rainbow"; "cloud"; "rain"; "snow"; "fire"; "heart"; "diamond"; "crown";
    "sword"; "shield"; "castle"; "bridge"; "train"; "bus"; "helicopter"; "balloon"; "kite"; "spider";
    "butterfly"; "snake"; "elephant"; "lion"; "monkey"; "penguin"; "whale"; "octopus"; "crab"; "turtle" ].

(* ===================================================================== *)
(** ** Vocabulary of the statements *)
(* ===================================================================== *)

(** A text made of white space only (the empty text included). *)
Fixpoint whitespaceOnly (s : string) : bool :=
  match s with
  | EmptyString => true
  | String c s' => isWhiteSpace c && whitespaceOnly s'
  end.

(** [kw] occurs in [line] when letter case is ignored. *)
Definition ciSubstring (kw line : string) : Prop :=
  exists pre mid post, line = pre ++ mid ++ post /\ toLowerCase mid = kw.

(** Every character of the text passes the test. *)
Fixpoint allChars (f : ascii -> bool) (s : string) : bool :=
  match s with
  | EmptyString => true
  | String c s' => f c && allChars f s'
  end.

(** The [<mime>] of a header [data:<mime>;base64,]: some text without a
    semicolon. *)
Definition isMimeText (m : string) : Prop :=
  m <> "" /\ ~ In ";"%char (list_ascii_of_string m).

Definition hasDataUriPrefix (s : string) : Prop :=
  exists mime payload,
    isMimeText mime /\ s = "data:" ++ mime ++ ";base64," ++ payload.

(** The payload that [guessDrawing] puts in the request. *)
Definition embeddedImages (base64Image : string) : list (option (list string)) :=
  map images (messages (buildRequest base64Image)).

(** The text in [message.content], when there is one. *)
Definition messageText (data : OllamaResponse) : option string :=
  match reply_message data with
  | Some m => content m
  | None => None
  end.

(** A field of the reply that carries no text: absent, empty or white
    space only. *)
Definition blankField (field : option string) : Prop :=
  match field with
  | Some s => whitespaceOnly s = true
  | None => True
  end.

(** The line names a confidence level, letter case ignored. *)
Definition namesConfidence (line : string) : Prop :=
  ciSubstring "high" line \/ ciSubstring "medium" line \/ ciSubstring "low" line.

(** The order in which the levels are looked for. *)
Definition rank (c : Confidence) : nat :=
  match c with high => 0 | medium => 1 | low => 2 end.

(** [c] is the first of high, medium, low that [line] contains. *)
Definition firstNamed (line : string) (c : Confidence) : Prop :=
  ciSubstring (confidenceText c) line /\
  forall c', rank c' < rank c -> ~ ciSubstring (confidenceText c') line.

(** The call completes an HTTP exchange with a successful status whose
    body decodes to [data]. *)
Definition completesWith (p : Platform) (base64Image : string)
    (data : OllamaResponse) : Prop :=
  exists resp decoded,
    settled (exchange p (buildRequest base64Image)) = Fulfilled resp /\
    ok resp = true /\
    json resp = Some (Fulfilled decoded) /\
    asOllamaResponse decoded = data.

(** The error kinds listed by the specification. *)
Definition specifiedKinds : list string :=
  [ "MODEL_NOT_FOUND"; "OLLAMA_SERVER_ERROR"; "TIMEOUT"; "NETWORK_ERROR";
    "EMPTY_GUESS"; "UNKNOWN_ERROR" ].

(** The error codes that [guessDrawing] constructs. *)
Definition producedKinds : list string :=
  [ "MODEL_NOT_FOUND"; "OLLAMA_SERVER_ERROR"; "OLLAMA_API_ERROR"; "TIMEOUT";
    "NETWORK_ERROR"; "EMPTY_GUESS"; "UNKNOWN_ERROR" ].

Definition timeoutError : OllamaError :=
  {| code := "TIMEOUT";
     message := "Ollama API request timed out after 120 seconds" |}.

(** A reply without any of the fields the parser reads. *)
Definition emptyReply : OllamaResponse :=
  {| model := "qwen3-vl"; reply_message := None; response := None;
     done := None; total_duration := None |}.

(** A backend that answers every request after [ms] milliseconds with the
    given status and JSON body. *)
Definition respondingBackend (ms status : N) (err : option string)
    (data : OllamaResponse) : Platform :=
  {| fetch := fun _ _ =>
       {| settlesAfter := Some ms;
          settlement := Fulfilled
            {| status := status;
               json := Some (Fulfilled
                         {| asOllamaErrorResponse := {| error := err |};
                            asOllamaResponse := data |}) |} |};
     timerFirstOnTie := true |}.

(** A backend that never answers. *)
Definition hungBackend : Platform :=
  {| fetch := fun _ _ =>
       {| settlesAfter := None;
          settlement := Rejected (ErrorObject true "TypeError" "fetch failed") |};
     timerFirstOnTie := false |}.

(** A backend that sends the status line and the headers of its response
    after [ms] milliseconds and never finishes the body. *)
Definition stalledBody (ms status : N) : Platform :=
  {| fetch := fun _ _ =>
       {| settlesAfter := Some ms;
          settlement := Fulfilled {| status := status; json := None |} |};
     timerFirstOnTie := true |}.

(** The reply of the first example: two lines, [It is a cat] and [high]. *)
Definition catReply : string := "It is a cat" ++ nl ++ "high".

(** The reply [flower], [high] on two lines. *)
Definition flowerReply : string := "flower" ++ nl ++ "high".

(* ===================================================================== *)
(** ** Vocabulary of the further properties *)
(* ===================================================================== *)

(** A guess as the prompt asks for it: some text on one line, without
    white space around it, that names no confidence level and carries none
    of the prefixes the parser removes. *)
Definition plainGuess (g : string) : bool :=
  truthy g
  && String.eqb (trim g) g
  && allChars (fun c => negb (Ascii.eqb c LF)) g
  && negb (looksLikeConfidence g)
  && String.eqb (cleanLine g) g.

(** The two-line reply the prompt asks for. *)
Definition twoLineReply (g : string) (c : Confidence) : string :=
  g ++ nl ++ confidenceText c.

(** The same two lines, confidence first. *)
Definition swappedReply (g : string) (c : Confidence) : string :=
  confidenceText c ++ nl ++ g.

(** A lower-case ASCII letter. *)
Definition isLowerLetter (c : ascii) : bool :=
  let n := N_of_ascii c in ((97 <=? n) && (n <=? 122))%N.

(** The label separators of the prefix expressions: a colon or a hyphen. *)
Definition isLabelSeparator (c : ascii) : bool :=
  Ascii.eqb c ":"%char || Ascii.eqb c "-"%char.

(* ===================================================================== *)
(** ** The route [/api/guess] ([POST], [getStatusCodeForError]) *)
(* ===================================================================== *)

(** [body.image] as the handler tests it: a string, or anything else
    (absent, [null], a number, an object). *)
Inductive ImageField : Type :=
| ImageText (s : string)
| ImageOther.

(** What [await request.json()] gives the handler. *)
Inductive RequestJson : Type :=
| NotJson (x : PlatformError)      (* the promise rejects *)
| JsonNull                         (* the body is the JSON value [null] *)
| JsonValue (image : ImageField).  (* any other value, with its [image] *)

(** [interface GuessResponse] *)
Record GuessResponse : Type := {
  r_guess : string;            (* guess *)
  r_confidence : string;       (* confidence *)
  r_duration_ms : Z            (* duration_ms *)
}.

(** [interface ErrorResponse] *)
Record ErrorResponse : Type := {
  r_error : string;            (* error *)
  r_code : option string       (* code? *)
}.

Inductive Payload : Type :=
| GuessPayload (g : GuessResponse)
| ErrorPayload (e : ErrorResponse).

(** [NextResponse.json(payload, { status })] *)
Record NextResponse : Type := {
  payload : Payload;
  httpStatus : N
}.

Definition getStatusCodeForError (code : string) : N :=
  if String.eqb code "MODEL_NOT_FOUND" then 503
  else if String.eqb code "OLLAMA_SERVER_ERROR" then 503
  else if String.eqb code "TIMEOUT" then 504
  else if String.eqb code "NETWORK_ERROR" then 503
  else if String.eqb code "INVALID_RESPONSE"
          || String.eqb code "INVALID_CONFIDENCE"
          || String.eqb code "EMPTY_GUESS" then 500
  else 500.

Definition badRequest (msg : string) : NextResponse :=
  {| payload := ErrorPayload {| r_error := msg; r_code := None |};
     httpStatus := 400 |}.

(** The [try] block of [POST].  Reading [body.image] off a [null] body
    throws a [TypeError]. *)
Definition routeTry (p : Platform) (request : RequestJson)
  : Completion NextResponse :=
  match request with
  | NotJson _ => Return (badRequest "Invalid JSON in request body")
  | JsonNull =>
      Throw (ThrownByPlatform
               (ErrorObject true "TypeError"
                  "Cannot read properties of null (reading 'image')"))
  | JsonValue ImageOther =>
      Return (badRequest "Missing or invalid 'image' field. Expected base64 string.")
  | JsonValue (ImageText image) =>
      if negb (truthy image) then
        Return (badRequest "Missing or invalid 'image' field. Expected base64 string.")
      else if (String.length (trim image) =? 0)%nat then
        Return (badRequest "Image field cannot be empty")
      else
        result <- guessDrawing p image ;;
        Return {| payload := GuessPayload
                    {| r_guess := guess result;
                       r_confidence := confidenceText (confidence result);
                       r_duration_ms := duration_ms result |};
                  httpStatus := 200 |}
  end.

(** The [catch (error)] block of [POST] (its [console.error] left out). *)
Definition routeCatch (error : Thrown) : NextResponse :=
  match error with
  | ThrownOllamaError e =>
      {| payload := ErrorPayload {| r_error := message e;
                                    r_code := Some (code e) |};
         httpStatus := getStatusCodeForError (code e) |}
  | ThrownByPlatform _ =>
      {| payload := ErrorPayload {| r_error := "Internal server error";
                                    r_code := None |};
         httpStatus := 500 |}
  end.

Definition POST (p : Platform) (request : RequestJson)
  : Completion NextResponse :=
  match routeTry p request with
  | Return response => Return response
  | Throw error => Return (routeCatch error)
  | Hangs => Hangs
  end.

(** A request the handler turns away: no JSON, no text in [image], or
    white space only. *)
Definition malformedRequest (request : RequestJson) : Prop :=
  match request with
  | NotJson _ => True
  | JsonNull => False
  | JsonValue ImageOther => True
  | JsonValue (ImageText image) => whitespaceOnly image = true
  end.

(* ===================================================================== *)
(** ** The drawing surface ([DrawingCanvas]) *)
(* ===================================================================== *)

(** The component once it is mounted: the bitmap of the canvas, the path
    and the stroke style of its 2D context, the React state [isDrawing],
    [brushSize], [brushColor], and the ref [undoStack].  Pointer positions
    and bitmaps are left abstract, and so is what stroking a path does to
    a bitmap. *)
Section Canvas.

Variable Point : Type.
Variable ImageData : Type.

(** [ctx.stroke()]: the bitmap after the current path is stroked with the
    current colour and width. *)
Variable strokePath : string -> Z -> list Point -> ImageData -> ImageData.

(** The bitmap after [fillRect] over the whole canvas with [#ffffff]. *)
Variable white : ImageData.

Definition MAX_UNDO_STEPS : nat := 20.

Record CanvasState : Type := {
  pixels : ImageData;
  path : list Point;
  strokeStyle : string;
  lineWidth : Z;
  isDrawing : bool;
  brushSize : Z;
  brushColor : string;
  undoStack : list ImageData
}.

(** The mount effect: fill with white and start the stack with that
    bitmap. *)
Definition mounted : CanvasState :=
  {| pixels := white;
     path := [];
     strokeStyle := "#000000";
     lineWidth := 1;
     isDrawing := false;
     brushSize := 4;
     brushColor := "#000000";
     undoStack := [white] |}.

Definition withPixels (d : ImageData) (s : CanvasState) : CanvasState :=
  {| pixels := d; path := path s; strokeStyle := strokeStyle s;
     lineWidth := lineWidth s; isDrawing := isDrawing s;
     brushSize := brushSize s; brushColor := brushColor s;
     undoStack := undoStack s |}.

Definition withUndoStack (st : list ImageData) (s : CanvasState) : CanvasState :=
  {| pixels := pixels s; path := path s; strokeStyle := strokeStyle s;
     lineWidth := lineWidth s; isDrawing := isDrawing s;
     brushSize := brushSize s; brushColor := brushColor s;
     undoStack := st |}.

(** [push] the current bitmap, then [shift] when the stack is longer than
    [MAX_UNDO_STEPS]. *)
Definition saveState (s : CanvasState) : CanvasState :=
  let pushed := (undoStack s ++ [pixels s])%list in
  withUndoStack
    (if (MAX_UNDO_STEPS <? List.length pushed)%nat then tl pushed else pushed) s.

Definition startDrawing (pt : Point) (s : CanvasState) : CanvasState :=
  let s := saveState s in
  {| pixels := pixels s;
     path := [pt];                       (* beginPath(); moveTo(x, y) *)
     strokeStyle := brushColor s;
     lineWidth := brushSize s;
     isDrawing := true;
     brushSize := brushSize s; brushColor := brushColor s;
     undoStack := undoStack s |}.

Definition draw (pt : Point) (s : CanvasState) : CanvasState :=
  if negb (isDrawing s) then s
  else
    let path' := (path s ++ [pt])%list in   (* lineTo(x, y) *)
    {| pixels := strokePath (strokeStyle s) (lineWidth s) path' (pixels s);
       path := path';
       strokeStyle := strokeStyle s; lineWidth := lineWidth s;
       isDrawing := isDrawing s;
       brushSize := brushSize s; brushColor := brushColor s;
       undoStack := undoStack s |}.

(** [closePath()] paints nothing; the path is started afresh by the next
    [beginPath()]. *)
Definition stopDrawing (s : CanvasState) : CanvasState :=
  if negb (isDrawing s) then s
  else
    {| pixels := pixels s; path := path s;
       strokeStyle := strokeStyle s; lineWidth := lineWidth s;
       isDrawing := false;
       brushSize := brushSize s; brushColor := brushColor s;
       undoStack := undoStack s |}.

(** [pop], then [putImageData] of the snapshot that is now on top. *)
Definition handleUndo (s : CanvasState) : CanvasState :=
  if (List.length (undoStack s) <=? 1)%nat then s
  else
    let st := removelast (undoStack s) in
    withPixels (last st (pixels s)) (withUndoStack st s).

Definition handleClear (s : CanvasState) : CanvasState :=
  withPixels white (saveState s).

Definition setBrushColor (c : string) (s : CanvasState) : CanvasState :=
  {| pixels := pixels s; path := path s;
     strokeStyle := strokeStyle s; lineWidth := lineWidth s;
     isDrawing := isDrawing s;
     brushSize := brushSize s; brushColor := c;
     undoStack := undoStack s |}.

Definition setBrushSize (n : Z) (s : CanvasState) : CanvasState :=
  {| pixels := pixels s; path := path s;
     strokeStyle := strokeStyle s; lineWidth := lineWidth s;
     isDrawing := isDrawing s;
     brushSize := n; brushColor := brushColor s;
     undoStack := undoStack s |}.

(** What the user does to the component. *)
Inductive CanvasEvent : Type :=
| PointerDown (pt : Point)     (* onMouseDown, onTouchStart *)
| PointerMove (pt : Point)     (* onMouseMove, onTouchMove *)
| PointerUp                    (* onMouseUp, onMouseLeave, onTouchEnd *)
| UndoClick
| ClearClick                   (* the button, and [clear] of the handle *)
| ColorClick (c : string)
| SizeChange (n : Z).

Definition canvasStep (s : CanvasState) (e : CanvasEvent) : CanvasState :=
  match e with
  | PointerDown pt => startDrawing pt s
  | PointerMove pt => draw pt s
  | PointerUp => stopDrawing s
  | UndoClick => handleUndo s
  | ClearClick => handleClear s
  | ColorClick c => setBrushColor c s
  | SizeChange n => setBrushSize n s
  end.

Definition canvasRun (s : CanvasState) (es : list CanvasEvent) : CanvasState :=
  fold_left canvasStep es s.

(** One stroke: press, move through the points, release. *)
Definition strokeEvents (pt : Point) (pts : list Point) : list CanvasEvent :=
  (PointerDown pt :: map PointerMove pts ++ [PointerUp])%list.

(** An action that takes a snapshot first: a stroke or a clear. *)
Inductive Action : Type :=
| Stroke (pt : Point) (pts : list Point)
| Clear.

Definition actionEvents (a : Action) : list CanvasEvent :=
  match a with
  | Stroke pt pts => strokeEvents pt pts
  | Clear => [ClearClick]
  end.

(** The bitmap equals the snapshot on top of the stack, as it does after
    mounting and after an undo. *)
Definition settledCanvas (s : CanvasState) : Prop :=
  exists st, undoStack s = (st ++ [pixels s])%list.

End Canvas.

Arguments pixels {Point ImageData} _.
Arguments undoStack {Point ImageData} _.
Arguments isDrawing {Point ImageData} _.
Arguments mounted {Point ImageData} white.
Arguments canvasRun {Point ImageData} strokePath white s es.
Arguments canvasStep {Point ImageData} strokePath white s e.
Arguments actionEvents {Point} a.
Arguments strokeEvents {Point} pt pts.
Arguments settledCanvas {Point ImageData} s.
Arguments UndoClick {Point}.
Arguments ClearClick {Point}.
Arguments PointerUp {Point}.

(** [getImageBase64] of the handle: [dataUrl] is what
    [canvas.toDataURL("image/png")] returns, [None] when the canvas is not
    there. *)
Definition getImageBase64 (dataUrl : option string) : string :=
  match dataUrl with
  | None => ""
  | Some dataUrl =>
      match nth_error (split ","%char dataUrl) 1 with
      | Some part => if truthy part then part else ""
      | None => ""
      end
  end.

(** A character of the base64 alphabet, padding included. *)
Definition isBase64Char (c : ascii) : bool :=
  let n := N_of_ascii c in
  ((65 <=? n) && (n <=? 90) || (97 <=? n) && (n <=? 122)
   || (48 <=? n) && (n <=? 57) || (n =? 43) || (n =? 47) || (n =? 61))%N.

(* ===================================================================== *)
(** ** The game page ([GamePage]): countdown and submission *)
(* ===================================================================== *)

Definition TIMER_DURATION : Z := 20.

(** The state and the refs of the countdown, and a count of the calls of
    [handleSubmit] that the timeout effect has made. *)
Record TimerState : Type := {
  timeRemaining : option Z;          (* number | null *)
  timerRef : bool;                   (* an interval is armed *)
  hasTimerStarted : bool;
  hasSubmittedOnTimeout : bool;
  timeoutSubmits : nat
}.

Definition initialTimer : TimerState :=
  {| timeRemaining := None; timerRef := false; hasTimerStarted := false;
     hasSubmittedOnTimeout := false; timeoutSubmits := 0 |}.

Definition stopTimer (s : TimerState) : TimerState :=
  {| timeRemaining := timeRemaining s; timerRef := false;
     hasTimerStarted := hasTimerStarted s;
     hasSubmittedOnTimeout := hasSubmittedOnTimeout s;
     timeoutSubmits := timeoutSubmits s |}.

Definition resetTimer (s : TimerState) : TimerState :=
  {| timeRemaining := None; timerRef := false; hasTimerStarted := false;
     hasSubmittedOnTimeout := false; timeoutSubmits := timeoutSubmits s |}.

Definition handleDrawingStart (s : TimerState) : TimerState :=
  if hasTimerStarted s then s
  else
    {| timeRemaining := Some TIMER_DURATION; timerRef := true;
       hasTimerStarted := true;
       hasSubmittedOnTimeout := hasSubmittedOnTimeout s;
       timeoutSubmits := timeoutSubmits s |}.

(** The callback of [setInterval]: the updater of [setTimeRemaining]. *)
Definition tick (s : TimerState) : TimerState :=
  let expired :=
    match timeRemaining s with
    | None => true
    | Some prev => (prev <=? 1)%Z
    end in
  if expired then
    {| timeRemaining := Some 0%Z; timerRef := false;
       hasTimerStarted := hasTimerStarted s;
       hasSubmittedOnTimeout := hasSubmittedOnTimeout s;
       timeoutSubmits := timeoutSubmits s |}
  else
    {| timeRemaining := option_map (fun prev => (prev - 1)%Z) (timeRemaining s);
       timerRef := timerRef s;
       hasTimerStarted := hasTimerStarted s;
       hasSubmittedOnTimeout := hasSubmittedOnTimeout s;
       timeoutSubmits := timeoutSubmits s |}.

(** The effect on [timeRemaining]: submit once when the time is up. *)
Definition timeoutEffect (s : TimerState) : TimerState :=
  match timeRemaining s with
  | Some 0%Z =>
      if hasSubmittedOnTimeout s then s
      else
        {| timeRemaining := timeRemaining s; timerRef := timerRef s;
           hasTimerStarted := hasTimerStarted s;
           hasSubmittedOnTimeout := true;
           timeoutSubmits := S (timeoutSubmits s) |}
  | _ => s
  end.

Inductive TimerEvent : Type :=
| DrawingStart        (* [onDrawingStart] of the canvas *)
| Tick                (* one second on the interval *)
| NewWord.            (* the button, [handleNewWord] *)

Definition sameTime (a b : option Z) : bool :=
  match a, b with
  | None, None => true
  | Some x, Some y => (x =? y)%Z
  | _, _ => false
  end.

(** One event and the render after it: the interval calls back only while
    it is armed, and the effect runs when [timeRemaining] has changed. *)
Definition timerStep (s : TimerState) (e : TimerEvent) : TimerState :=
  let s' :=
    match e with
    | DrawingStart => handleDrawingStart s
    | Tick => if timerRef s then tick s else s
    | NewWord => resetTimer s
    end in
  if sameTime (timeRemaining s') (timeRemaining s) then s' else timeoutEffect s'.

Definition timerRun (s : TimerState) (es : list TimerEvent) : TimerState :=
  fold_left timerStep es s.

Definition isNewWord (e : TimerEvent) : bool :=
  match e with NewWord => true | _ => false end.

(** [interface Guess]; the fields are what the page reads off the decoded
    answer, absent when the answer does not carry them. *)
Record Guess : Type := {
  shownGuess : option string;          (* guess *)
  shownConfidence : option string;     (* confidence *)
  shownDuration : option Z;            (* duration_ms *)
  timestamp : Z                        (* new Date() *)
}.

(** The state that [handleSubmit] writes. *)
Record SubmitState : Type := {
  guesses : list Guess;
  isLoading : bool;
  pageError : option string            (* error *)
}.

(** How the request to [/api/guess] ends for the page. *)
Inductive ApiOutcome : Type :=
| ApiUnreachable                       (* [fetch] rejects *)
| ApiNotJson                           (* [response.json()] rejects *)
| ApiAnswered (response : NextResponse).

Definition answerOk (response : NextResponse) : bool :=
  ((200 <=? httpStatus response) && (httpStatus response <=? 299))%N.

(** [data.error || 'Something went wrong'] *)
Definition errorText (response : NextResponse) : string :=
  match payload response with
  | ErrorPayload e => if truthy (r_error e) then r_error e
                      else "Something went wrong"
  | GuessPayload _ => "Something went wrong"
  end.

Definition guessOf (response : NextResponse) (now : Z) : Guess :=
  match payload response with
  | GuessPayload g =>
      {| shownGuess := Some (r_guess g);
         shownConfidence := Some (r_confidence g);
         shownDuration := Some (r_duration_ms g);
         timestamp := now |}
  | ErrorPayload _ =>
      {| shownGuess := None; shownConfidence := None; shownDuration := None;
         timestamp := now |}
  end.

(** [handleSubmit] from its call to the end of its [finally]: [image] is
    the export of the canvas ([None] without a canvas), [api] how the
    server answers an image, [now] the clock. *)
Definition handleSubmit (image : option string) (api : string -> ApiOutcome)
    (now : Z) (s : SubmitState) : SubmitState :=
  match image with
  | None => s
  | Some base64Image =>
      if negb (truthy base64Image) then s
      else
        match api base64Image with
        | ApiUnreachable | ApiNotJson =>
            {| guesses := guesses s; isLoading := false;
               pageError := Some "Failed to connect. Is the server running?" |}
        | ApiAnswered response =>
            if negb (answerOk response) then
              {| guesses := guesses s; isLoading := false;
                 pageError := Some (errorText response) |}
            else
              {| guesses := guessOf response now :: guesses s;
                 isLoading := false;
                 pageError := None |}
        end
  end.

(** The server runs the route in front of the backend [p] and its answer
    reaches the page. *)
Definition servedBy (p : Platform) (api : string -> ApiOutcome) : Prop :=
  forall image response,
    POST p (JsonValue (ImageText image)) = Return response ->
    api image = ApiAnswered response.

(** What holds of the countdown after [n] new words. *)
Definition timerInvariant (s : TimerState) (n : nat) : Prop :=
  timeoutSubmits s + (if hasSubmittedOnTimeout s then 0 else 1) <= n + 1
  /\ match timeRemaining s with
     | None => True
     | Some t => (0 <= t <= TIMER_DURATION)%Z
     end
  /\ (timerRef s = true ->
      exists t, timeRemaining s = Some t /\ (1 <= t)%Z)
  /\ (timeRemaining s = Some 0%Z -> hasSubmittedOnTimeout s = true).

(* ===================================================================== *)
(** ** The parser on the examples of the specification *)
(* ===================================================================== *)

Example ex_cat :
  normalizeResponse (replyWith ("It is a cat" ++ nl ++ "high"))
  = Return {| guess := "a cat"; confidence := high; duration_ms := 0 |}.
Proof. reflexivity. Qed.

Example ex_dog :
  normalizeResponse
    (replyWith ("Guess: dog" ++ nl ++ "I'm not totally sure, maybe medium confidence"))
  = Return {| guess := "dog"; confidence := medium; duration_ms := 0 |}.
Proof. reflexivity. Qed.

Example ex_balloon :
  normalizeResponse (replyWith "a red balloon")
  = Return {| guess := "a red balloon"; confidence := medium; duration_ms := 0 |}.
Proof. reflexivity. Qed.

Example ex_high :
  normalizeResponse (replyWith "high")
  = Throw (ThrownOllamaError emptyGuessError).
Proof. reflexivity. Qed.

Example ex_strip :
  stripDataUriPrefix "data:image/png;base64,iVBORw0KGgo=" = "iVBORw0KGgo=".
Proof. reflexivity. Qed.

(** A header with a parameter after the media type, or without a media
    type, is not matched by the expression and stays in place. *)
Example ex_strip_parameter :
  stripDataUriPrefix "data:image/svg+xml;charset=utf-8;base64,PHN2Zz4="
  = "data:image/svg+xml;charset=utf-8;base64,PHN2Zz4=".
Proof. reflexivity. Qed.

Example ex_strip_no_media_type :
  stripDataUriPrefix "data:;base64,iVBORw0KGgo=" = "data:;base64,iVBORw0KGgo=".
Proof. reflexivity. Qed.

Example ex_strip_upper_case :
  stripDataUriPrefix "DATA:image/png;base64,iVBORw0KGgo="
  = "DATA:image/png;base64,iVBORw0KGgo=".
Proof. reflexivity. Qed.

Example ex_trim : trim ("  a b " ++ nl) = "a b".
Proof. reflexivity. Qed.

Example ex_split : split LF ("a" ++ nl ++ nl ++ "b" ++ nl) = ["a"; ""; "b"; ""].
Proof. reflexivity. Qed.

Example ex_lines :
  candidateLines ("  cat " ++ nl ++ "   " ++ nl ++ "high") = ["cat"; "high"].
Proof. reflexivity. Qed.

Example ex_clean_guess : cleanLine "GUESS  -  dog" = "dog".
Proof. reflexivity. Qed.

Example ex_clean_answer : cleanLine "Answer:tree" = "tree".
Proof. reflexivity. Qed.

Example ex_clean_chain : cleanLine "guess: answer - it  is a bird" = "a bird".
Proof. reflexivity. Qed.

Example ex_clean_it_is_alone : cleanLine "it is" = "it is".
Proof. reflexivity. Qed.

Example ex_prefix_only :
  normalizeResponse (replyWith "Guess:") = Throw (ThrownOllamaError emptyGuessError).
Proof. reflexivity. Qed.

Example ex_fallback_field :
  normalizeResponse
    {| model := "qwen3-vl";
       reply_message := Some {| content := Some "  " |};
       response := Some ("sun" ++ nl ++ "LOW");
       done := Some true;
       total_duration := Some {| intval := 2345678901; intrange := eq_refl |} |}
  = Return {| guess := "sun"; confidence := low; duration_ms := 2346 |}.
Proof. reflexivity. Qed.

Example ex_status_500 :
  guessDrawing (respondingBackend 40 500 None emptyReply) "iVBORw0KGgo="
  = Throw (ThrownOllamaError
             {| code := "OLLAMA_SERVER_ERROR";
                message := "Ollama server error: Ollama API returned status 500" |}).
Proof. reflexivity. Qed.

(** The timer is disarmed once the response headers are in: a body that
    never arrives leaves the call pending. *)
Example ex_body_never_arrives :
  guessDrawing
    {| fetch := fun _ _ =>
         {| settlesAfter := Some 20%N;
            settlement := Fulfilled {| status := 200; json := None |} |};
       timerFirstOnTie := true |}
    "iVBORw0KGgo="
  = Hangs.
Proof. reflexivity. Qed.

Example ex_body_not_json :
  guessDrawing
    {| fetch := fun _ _ =>
         {| settlesAfter := Some 20%N;
            settlement := Fulfilled
              {| status := 200;
                 json := Some (Rejected (ErrorObject false "SyntaxError"
                                           "Unexpected token < in JSON at position 0")) |} |};
       timerFirstOnTie := true |}
    "iVBORw0KGgo="
  = Throw (ThrownOllamaError
             {| code := "UNKNOWN_ERROR";
                message := "Unexpected error: Unexpected token < in JSON at position 0" |}).
Proof. reflexivity. Qed.

Example ex_network :
  guessDrawing
    {| fetch := fun _ _ =>
         {| settlesAfter := Some 3%N;
            settlement := Rejected (ErrorObject true "TypeError" "fetch failed") |};
       timerFirstOnTie := true |}
    "iVBORw0KGgo="
  = Throw (ThrownOllamaError
             {| code := "NETWORK_ERROR";
                message := "Failed to connect to Ollama API: fetch failed" |}).
Proof. reflexivity. Qed.

(* ===================================================================== *)
(** ** Facts about JavaScript strings *)
(* ===================================================================== *)

Section StringFacts.

Lemma truthy_false_iff (s : string) : truthy s = false <-> s = "".
Proof. destruct s; simpl; split; intro H; congruence. Qed.

Lemma truthy_true_iff (s : string) : truthy s = true <-> s <> "".
Proof. destruct s; simpl; split; intro H; congruence. Qed.

Lemma append_assoc (a b c : string) : (a ++ b) ++ c = a ++ b ++ c.
Proof. induction a as [|x a IH]; simpl; [reflexivity | now rewrite IH]. Qed.

Lemma append_empty_r (a : string) : a ++ "" = a.
Proof. induction a as [|x a IH]; simpl; [reflexivity | now rewrite IH]. Qed.

Lemma startsWith_append (p r : string) : startsWith (p ++ r) p = true.
Proof.
  induction p as [|c p IH]; simpl.
  - destruct r; reflexivity.
  - now rewrite Ascii.eqb_refl, IH.
Qed.

Lemma startsWith_inv (p s : string) :
  startsWith s p = true -> exists r, s = p ++ r.
Proof.
  revert s; induction p as [|c p IH]; intros s H.
  - exists s; reflexivity.
  - destruct s as [|d s]; simpl in H; [discriminate|].
    apply andb_true_iff in H as [Hc Hs].
    apply Ascii.eqb_eq in Hc; subst d.
    destruct (IH _ Hs) as [r ->].
    exists r; reflexivity.
Qed.

Lemma includes_unfold (s sub : string) :
  includes s sub =
  startsWith s sub ||
  match s with EmptyString => false | String _ s' => includes s' sub end.
Proof. destruct s; reflexivity. Qed.

Lemma includes_append (a sub b : string) : includes (a ++ sub ++ b) sub = true.
Proof.
  induction a as [|c a IH].
  - simpl append. rewrite includes_unfold, startsWith_append. reflexivity.
  - simpl. rewrite IH. apply orb_true_r.
Qed.

Lemma includes_inv (s sub : string) :
  includes s sub = true -> exists a b, s = a ++ sub ++ b.
Proof.
  induction s as [|c s IH]; intro H; rewrite includes_unfold in H;
    apply orb_true_iff in H as [H|H].
  - destruct (startsWith_inv _ _ H) as [r Hr]. exists "", r. exact Hr.
  - discriminate.
  - destruct (startsWith_inv _ _ H) as [r Hr]. exists "", r. exact Hr.
  - destruct (IH H) as (a & b & ->). exists (String c a), b. reflexivity.
Qed.

Lemma includes_iff (s sub : string) :
  includes s sub = true <-> exists a b, s = a ++ sub ++ b.
Proof.
  split; [apply includes_inv|].
  intros (a & b & ->). apply includes_append.
Qed.

Lemma toLowerCase_append (a b : string) :
  toLowerCase (a ++ b) = toLowerCase a ++ toLowerCase b.
Proof. induction a as [|c a IH]; simpl; [reflexivity | now rewrite IH]. Qed.

Lemma toLowerCase_split (s a b : string) :
  toLowerCase s = a ++ b ->
  exists s1 s2, s = s1 ++ s2 /\ toLowerCase s1 = a /\ toLowerCase s2 = b.
Proof.
  revert s; induction a as [|c a IH]; intros s H.
  - exists "", s. auto.
  - destruct s as [|d s]; simpl in H; [discriminate|].
    injection H as Hc Hs.
    destruct (IH _ Hs) as (s1 & s2 & -> & H1 & H2).
    exists (String d s1), s2. simpl. rewrite H1, Hc. auto.
Qed.

Lemma mentions_iff (kw line : string) :
  mentions kw line = true <-> ciSubstring kw line.
Proof.
  unfold mentions, ciSubstring. rewrite includes_iff. split.
  - intros (a & b & H).
    apply toLowerCase_split in H as (pre & rest & -> & Hpre & Hrest).
    apply toLowerCase_split in Hrest as (mid & post & -> & Hmid & Hpost).
    exists pre, mid, post. auto.
  - intros (pre & mid & post & -> & <-).
    exists (toLowerCase pre), (toLowerCase post).
    now rewrite !toLowerCase_append.
Qed.

Lemma trimStart_head (s : string) (c : ascii) (t : string) :
  trimStart s = String c t -> isWhiteSpace c = false.
Proof.
  induction s as [|d s IH]; simpl; [discriminate|].
  destruct (isWhiteSpace d) eqn:Hd; [exact IH|].
  intro H; injection H as -> _. exact Hd.
Qed.

Lemma trimStart_empty_iff (s : string) :
  trimStart s = "" <-> whitespaceOnly s = true.
Proof.
  induction s as [|c s IH]; simpl.
  - tauto.
  - destruct (isWhiteSpace c); simpl; [exact IH|].
    split; discriminate.
Qed.

Lemma trimEnd_empty_iff (s : string) :
  trimEnd s = "" <-> whitespaceOnly s = true.
Proof.
  induction s as [|c s IH]; simpl.
  - tauto.
  - destruct (trimEnd s) as [|d t].
    + destruct (isWhiteSpace c); simpl.
      * split; intros _; [apply IH|]; reflexivity.
      * split; discriminate.
    + split; [discriminate|].
      intro H. apply andb_true_iff in H as [_ H].
      apply IH in H. discriminate.
Qed.

Lemma trim_empty_iff (s : string) :
  trim s = "" <-> whitespaceOnly s = true.
Proof.
  unfold trim. rewrite trimEnd_empty_iff. split; intro H.
  - apply trimStart_empty_iff.
    destruct (trimStart s) as [|c t] eqn:E; [reflexivity|].
    apply trimStart_head in E. simpl in H. rewrite E in H. discriminate.
  - apply trimStart_empty_iff in H. now rewrite H.
Qed.

Lemma trim_skip (c : ascii) (s : string) :
  isWhiteSpace c = true -> trim (String c s) = trim s.
Proof. intro H. unfold trim. simpl. now rewrite H. Qed.

Lemma trim_keep (c : ascii) (s : string) :
  isWhiteSpace c = false -> exists t, trim (String c s) = String c t.
Proof.
  intro H. unfold trim. simpl. rewrite H. simpl.
  destruct (trimEnd s) as [|d t]; rewrite ?H; eauto.
Qed.

Lemma trim_head (s : string) (c : ascii) (t : string) :
  trim s = String c t -> isWhiteSpace c = false.
Proof.
  unfold trim. destruct (trimStart s) as [|d u] eqn:E; simpl; [discriminate|].
  apply trimStart_head in E.
  destruct (trimEnd u); rewrite ?E; intro H; injection H as <- _; exact E.
Qed.

Lemma split_not_nil (sep : ascii) (s : string) : split sep s <> [].
Proof.
  destruct s as [|c s]; simpl; [discriminate|].
  destruct (Ascii.eqb c sep); [discriminate|].
  destruct (split sep s); discriminate.
Qed.

End StringFacts.

(* ===================================================================== *)
(** ** Facts about the matcher *)
(* ===================================================================== *)

Section MatcherFacts.

Variable i : bool.

Lemma greedy_total (acc : ascii -> bool) (k : string -> option string)
    (s r : string) :
  k s = Some r -> exists r', greedy acc k s = Some r'.
Proof.
  intro H. destruct s as [|c s]; simpl.
  - eauto.
  - destruct (acc c); [destruct (greedy acc k s)|]; eauto.
Qed.

(** A greedy loop that can take all of [m], cannot take what follows, and
    whose continuation then succeeds, takes exactly [m]. *)
Lemma greedy_run (acc : ascii -> bool) (k : string -> option string)
    (m s r : string) :
  allChars acc m = true ->
  match s with EmptyString => True | String c _ => acc c = false end ->
  k s = Some r ->
  greedy acc k (m ++ s) = Some r.
Proof.
  intros Hm Hs Hk. induction m as [|d m IH]; simpl in *.
  - destruct s as [|c s]; simpl; [exact Hk|]. now rewrite Hs.
  - apply andb_true_iff in Hm as [Hd Hm]. now rewrite Hd, (IH Hm).
Qed.

Lemma greedy_matches (a : CharSet) (re : Pattern) :
  (forall s r, exec i re s = Some r -> exists p, s = p ++ r /\ Matches i re p) ->
  forall s r, greedy (accepts i a) (exec i re) s = Some r ->
    exists p, s = p ++ r /\ Matches i (ZeroOrMore a :: re) p.
Proof.
  intros Hk s. induction s as [|c s IH]; intros r H; simpl in H.
  - destruct (Hk _ _ H) as (p & Hp & Hm). exists p. split; [exact Hp|].
    now apply M_star_stop.
  - destruct (accepts i a c) eqn:Hc.
    + destruct (greedy (accepts i a) (exec i re) s) as [r'|] eqn:Hg.
      * injection H as ->. destruct (IH _ eq_refl) as (p & -> & Hm).
        exists (String c p). split; [reflexivity|]. now apply M_star_more.
      * destruct (Hk _ _ H) as (p & Hp & Hm). exists p. split; [exact Hp|].
        now apply M_star_stop.
    + destruct (Hk _ _ H) as (p & Hp & Hm). exists p. split; [exact Hp|].
      now apply M_star_stop.
Qed.

(** What [exec] removes is a word of the pattern's language. *)
Lemma exec_sound (re : Pattern) (s r : string) :
  exec i re s = Some r -> exists p, s = p ++ r /\ Matches i re p.
Proof.
  revert s r. induction re as [|t re IH]; intros s r H.
  - simpl in H. injection H as ->. exists "". split; [reflexivity | constructor].
  - destruct t as [a|a|a]; simpl in H.
    + destruct s as [|c s]; [discriminate|].
      destruct (accepts i a c) eqn:Hc; [|discriminate].
      destruct (IH _ _ H) as (p & -> & Hm).
      exists (String c p). split; [reflexivity|]. now constructor.
    + now apply greedy_matches.
    + destruct s as [|c s]; [discriminate|].
      destruct (accepts i a c) eqn:Hc; [|discriminate].
      destruct (greedy_matches a re IH _ _ H) as (p & -> & Hm).
      exists (String c p). split; [reflexivity|]. now apply M_plus.
Qed.

(** Whenever some prefix of the text is a word of the language, [exec]
    finds a match. *)
Lemma exec_complete (re : Pattern) (p : string) :
  Matches i re p -> forall r, exists r', exec i re (p ++ r) = Some r'.
Proof.
  induction 1 as [|a re c p Hc _ IH|a re p _ IH|a re c p Hc _ IH|a re c p Hc _ IH];
    intro r; simpl.
  - eauto.
  - rewrite Hc. apply IH.
  - destruct (IH r) as [r' Hr']. eapply greedy_total; eassumption.
  - rewrite Hc. destruct (IH r) as [r' Hr']. simpl in Hr'. rewrite Hr'. eauto.
  - rewrite Hc. destruct (IH r) as [r' Hr']. simpl in Hr'. eauto.
Qed.

Lemma removePrefix_no_match (re : Pattern) (s : string) :
  (forall p r, s = p ++ r -> ~ Matches i re p) -> removePrefix i re s = s.
Proof.
  intro H. unfold removePrefix.
  destruct (exec i re s) as [r|] eqn:E; [|reflexivity].
  destruct (exec_sound _ _ _ E) as (p & Hp & Hm).
  exfalso. exact (H _ _ Hp Hm).
Qed.

Lemma matches_star_inv (a : CharSet) (re : Pattern) (p : string) :
  Matches i (ZeroOrMore a :: re) p ->
  exists m t, p = m ++ t /\ allChars (accepts i a) m = true /\ Matches i re t.
Proof.
  intro H. remember (ZeroOrMore a :: re) as pat eqn:Epat.
  induction H as [|? ? ? ? ? ? _|a' re' p H _|a' re' c p Hc H IH|? ? ? ? ? ? _];
    try discriminate; injection Epat as -> ->.
  - exists "", p. auto.
  - destruct (IH eq_refl) as (m & t & -> & Hm & Ht).
    exists (String c m), t. simpl. rewrite Hc, Hm. auto.
Qed.

End MatcherFacts.

Lemma matches_lit (w p : string) : Matches false (lit w) p -> p = w.
Proof.
  revert p. induction w as [|c w IH]; intros p H; inversion H; subst.
  - reflexivity.
  - simpl in *. match goal with E : Ascii.eqb _ _ = true |- _ =>
      apply Ascii.eqb_eq in E; subst end.
    f_equal. now apply IH.
Qed.

(* ===================================================================== *)
(** ** Facts about the data-URI header *)
(* ===================================================================== *)

Lemma accepts_not_semicolon (c : ascii) :
  accepts false (NoneOf [";"%char]) c = negb (Ascii.eqb ";"%char c).
Proof. unfold accepts, existsb, sameChar. now rewrite orb_false_r. Qed.

Lemma no_semicolon_iff (m : string) :
  allChars (accepts false (NoneOf [";"%char])) m = true
  <-> ~ In ";"%char (list_ascii_of_string m).
Proof.
  induction m as [|c m IH]; [simpl; tauto|].
  cbn [allChars list_ascii_of_string In].
  rewrite accepts_not_semicolon, andb_true_iff, IH, negb_true_iff.
  destruct (Ascii.eqb_spec ";"%char c) as [->|Hc].
  - split; [intros [H _]; discriminate | intro H; exfalso; apply H; now left].
  - split; [intros [_ H] [E|E]; [congruence | tauto]|].
    intro H; split; [reflexivity|]. intro E. apply H. now right.
Qed.

Lemma exec_lit (w : string) (re : Pattern) (s : string) :
  exec false (lit w ++ re)%list (w ++ s) = exec false re s.
Proof.
  induction w as [|c w IH]; [reflexivity|].
  cbn [lit app append exec accepts sameChar]. now rewrite Ascii.eqb_refl.
Qed.

Lemma exec_lit_only (w s : string) : exec false (lit w) (w ++ s) = Some s.
Proof. rewrite <- (app_nil_r (lit w)). apply exec_lit. Qed.

Lemma stripDataUriPrefix_header (mime payload : string) :
  isMimeText mime ->
  stripDataUriPrefix ("data:" ++ mime ++ ";base64," ++ payload) = payload.
Proof.
  intros [Hne Hsemi]. apply no_semicolon_iff in Hsemi.
  destruct mime as [|c m]; [congruence|].
  cbn [allChars] in Hsemi. apply andb_true_iff in Hsemi as [Hc Hm].
  unfold stripDataUriPrefix, removePrefix, dataUriRegex.
  rewrite exec_lit. cbn [app append exec]. rewrite Hc.
  rewrite (greedy_run _ _ m (";base64," ++ payload) payload).
  - reflexivity.
  - exact Hm.
  - reflexivity.
  - apply exec_lit_only.
Qed.

Lemma accepts_chr (p c : ascii) : accepts false (Chr p) c = true -> c = p.
Proof. intro H. symmetry. now apply Ascii.eqb_eq. Qed.

Lemma stripDataUriPrefix_match (s r : string) :
  exec false dataUriRegex s = Some r ->
  exists mime, isMimeText mime /\ s = "data:" ++ mime ++ ";base64," ++ r.
Proof.
  intro H. apply exec_sound in H as (p & -> & Hm).
  unfold dataUriRegex in Hm. cbn [lit app] in Hm.
  repeat match goal with
  | M : Matches _ (Once (Chr _) :: _) _ |- _ => inversion M; subst; clear M
  | E : accepts false (Chr _) _ = true |- _ => apply accepts_chr in E; subst
  end.
  match goal with M : Matches _ (OneOrMore _ :: _) _ |- _ =>
    inversion M as [| | | |a re c q Hc Hq]; subst; clear M end.
  apply matches_star_inv in Hq as (m & t & -> & Hall & Ht).
  apply (matches_lit ";base64,") in Ht. subst t.
  exists (String c m). split.
  - split; [discriminate|]. apply no_semicolon_iff. simpl.
    now rewrite Hall, andb_true_r.
  - simpl. now rewrite append_assoc.
Qed.

Lemma stripDataUriPrefix_other (s : string) :
  ~ hasDataUriPrefix s -> stripDataUriPrefix s = s.
Proof.
  intro H. unfold stripDataUriPrefix, removePrefix.
  destruct (exec false dataUriRegex s) as [r|] eqn:E; [|reflexivity].
  exfalso. apply H. apply stripDataUriPrefix_match in E as (mime & Hm & ->).
  now exists mime, r.
Qed.

(* ===================================================================== *)
(** ** Facts about the parser *)
(* ===================================================================== *)

Section ParserFacts.

Lemma mentions_false_iff (kw line : string) :
  mentions kw line = false <-> ~ ciSubstring kw line.
Proof.
  rewrite <- mentions_iff. destruct (mentions kw line); split; congruence.
Qed.

Lemma looksLikeConfidence_iff (line : string) :
  looksLikeConfidence line = true <-> namesConfidence line.
Proof.
  unfold looksLikeConfidence, namesConfidence.
  rewrite !orb_true_iff, !mentions_iff. tauto.
Qed.

Lemma looksLikeConfidence_false_iff (line : string) :
  looksLikeConfidence line = false <-> ~ namesConfidence line.
Proof.
  rewrite <- looksLikeConfidence_iff.
  destruct (looksLikeConfidence line); split; congruence.
Qed.

Lemma not_named_mentions (line : string) :
  ~ namesConfidence line ->
  mentions "high" line = false /\ mentions "medium" line = false
  /\ mentions "low" line = false.
Proof.
  intro H. apply looksLikeConfidence_false_iff in H.
  unfold looksLikeConfidence in H.
  apply orb_false_iff in H as [H Hl]. apply orb_false_iff in H as [Hh Hm].
  auto.
Qed.

Lemma extractConfidence_none (lines : list string) :
  extractConfidence lines = None
  <-> Forall (fun l => ~ namesConfidence l) lines.
Proof.
  induction lines as [|line rest IH]; simpl.
  - split; auto.
  - destruct (mentions "high" line) eqn:Hh;
      [|destruct (mentions "medium" line) eqn:Hm;
        [|destruct (mentions "low" line) eqn:Hl]].
    1-3: split; [discriminate|]; intro H; inversion H as [|? ? Hn _]; subst;
         exfalso; apply Hn; unfold namesConfidence;
         rewrite <- !mentions_iff; auto.
    rewrite IH. split.
    + intro H. constructor; [|exact H].
      apply looksLikeConfidence_false_iff. unfold looksLikeConfidence.
      now rewrite Hh, Hm, Hl.
    + intro H. now inversion H.
Qed.

Lemma extractConfidence_first (line : string) (after : list string)
    (c : Confidence) :
  firstNamed line c -> extractConfidence (line :: after) = Some c.
Proof.
  intros [Hc Hfirst]. apply mentions_iff in Hc. simpl.
  destruct c; simpl in Hc.
  - now rewrite Hc.
  - assert (Hh : mentions "high" line = false)
      by (apply mentions_false_iff, (Hfirst high); simpl; lia).
    now rewrite Hh, Hc.
  - assert (Hh : mentions "high" line = false)
      by (apply mentions_false_iff, (Hfirst high); simpl; lia).
    assert (Hm : mentions "medium" line = false)
      by (apply mentions_false_iff, (Hfirst medium); simpl; lia).
    now rewrite Hh, Hm, Hc.
Qed.

Lemma extractConfidence_some (lines : list string) (c : Confidence) :
  extractConfidence lines = Some c <->
  exists before line after,
    lines = (before ++ line :: after)%list /\
    Forall (fun l => ~ namesConfidence l) before /\
    firstNamed line c.
Proof.
  split.
  - induction lines as [|line rest IH]; simpl; [discriminate|].
    destruct (mentions "high" line) eqn:Hh;
      [|destruct (mentions "medium" line) eqn:Hm;
        [|destruct (mentions "low" line) eqn:Hl]].
    1-3: intro H; injection H as <-; exists [], line, rest;
         (split; [reflexivity|]); (split; [constructor|]);
         (split; [now apply mentions_iff|]);
         intros [ | | ] Hr; simpl in Hr; try lia;
         now apply mentions_false_iff.
    intro H. destruct (IH H) as (before & l & after & -> & Hb & Hl').
    exists (line :: before), l, after. split; [reflexivity|]. split; [|exact Hl'].
    constructor; [|exact Hb].
    apply looksLikeConfidence_false_iff. unfold looksLikeConfidence.
    now rewrite Hh, Hm, Hl.
  - intros (before & line & after & -> & Hb & Hl).
    induction Hb as [|l before Hn _ IH].
    + now apply extractConfidence_first.
    + destruct (not_named_mentions _ Hn) as (Hh & Hm & Hlo).
      simpl. now rewrite Hh, Hm, Hlo.
Qed.

Lemma resolveConfidence_default (lines : list string) :
  Forall (fun l => ~ namesConfidence l) lines ->
  resolveConfidence lines = medium.
Proof.
  intro H. apply extractConfidence_none in H.
  unfold resolveConfidence. now rewrite H.
Qed.

Lemma extractGuess_all_skipped (lines : list string) :
  Forall namesConfidence lines -> extractGuess lines = "".
Proof.
  induction 1 as [|line rest Hn _ IH]; simpl; [reflexivity|].
  apply looksLikeConfidence_iff in Hn. now rewrite Hn.
Qed.

Lemma extractResponseContent_empty_iff (data : OllamaResponse) :
  extractResponseContent data = ""
  <-> blankField (messageText data) /\ blankField (response data).
Proof.
  unfold extractResponseContent, messageText, blankField.
  destruct (reply_message data) as [[[c|]]|]; simpl;
    destruct (response data) as [r|]; simpl;
    rewrite <- ?trim_empty_iff;
    try destruct (trim c) eqn:Ec; try destruct (trim r) eqn:Er; simpl;
    intuition congruence.
Qed.

(** The parser throws nothing but the empty-guess error. *)
Lemma normalizeResponse_throws (data : OllamaResponse) (t : Thrown) :
  normalizeResponse data = Throw t -> t = ThrownOllamaError emptyGuessError.
Proof.
  unfold normalizeResponse.
  destruct (truthy (extractResponseContent data)); simpl; [|discriminate].
  destruct (truthy (extractGuess _)); simpl; congruence.
Qed.

(** On a non-empty trimmed reply the outcome is decided by the guess. *)
Lemma normalizeResponse_parsed (data : OllamaResponse) :
  extractResponseContent data <> "" ->
  let lines := candidateLines (extractResponseContent data) in
  normalizeResponse data =
  if truthy (extractGuess lines)
  then Return {| guess := extractGuess lines;
                 confidence := resolveConfidence lines;
                 duration_ms := durationMs data |}
  else Throw (ThrownOllamaError emptyGuessError).
Proof.
  intro H. apply truthy_true_iff in H. unfold normalizeResponse.
  rewrite H. simpl. now destruct (truthy (extractGuess _)).
Qed.

Lemma normalizeResponse_blank (data : OllamaResponse) :
  extractResponseContent data = "" ->
  normalizeResponse data =
  Return {| guess := "unclear"; confidence := low;
            duration_ms := durationMs data |}.
Proof. intro H. unfold normalizeResponse. now rewrite H. Qed.

(** On a completed, successful exchange [guessDrawing] is the parser run
    on the decoded body. *)
Lemma guessDrawing_completes (p : Platform) (img : string)
    (data : OllamaResponse) :
  completesWith p img data -> guessDrawing p img = normalizeResponse data.
Proof.
  intros (resp & decoded & Hs & Hok & Hj & <-).
  unfold guessDrawing, tryBlock. rewrite Hs. simpl. rewrite Hok, Hj. simpl.
  destruct (normalizeResponse (asOllamaResponse decoded)) as [r|t|] eqn:E;
    [reflexivity| |reflexivity].
  apply normalizeResponse_throws in E. now subst t.
Qed.

(** A text has a candidate line exactly when it is not blank. *)
Lemma candidateLines_nil_iff (s : string) :
  candidateLines s = [] <-> whitespaceOnly s = true.
Proof.
  unfold candidateLines. induction s as [|c s IH]; simpl.
  - tauto.
  - destruct (Ascii.eqb_spec c LF) as [->|Hc].
    + simpl. exact IH.
    + destruct (split LF s) as [|h t] eqn:E; [now apply split_not_nil in E|].
      cbn [map filter] in *.
      destruct (isWhiteSpace c) eqn:W; simpl.
      * now rewrite (trim_skip _ _ W).
      * destruct (trim_keep c h W) as [u ->]. simpl.
        split; discriminate.
Qed.

(** The text handed to the line scans has no leading white space. *)
Lemma extractResponseContent_head (data : OllamaResponse) (c : ascii)
    (t : string) :
  extractResponseContent data = String c t -> isWhiteSpace c = false.
Proof.
  unfold extractResponseContent.
  destruct (reply_message data) as [[[m|]]|]; simpl;
    destruct (response data) as [r|]; simpl;
    try destruct (trim m) eqn:Em; try destruct (trim r) eqn:Er; simpl;
    try discriminate;
    intro H; injection H as <- _;
    first [exact (trim_head _ _ _ Em) | exact (trim_head _ _ _ Er)].
Qed.

(** The reply carries text exactly when it has a candidate line. *)
Lemma has_candidate_line_iff (data : OllamaResponse) :
  candidateLines (extractResponseContent data) <> []
  <-> extractResponseContent data <> "".
Proof.
  rewrite candidateLines_nil_iff. split.
  - intros H E. apply H. now rewrite E.
  - intros H W. destruct (extractResponseContent data) as [|c t] eqn:E;
      [congruence|].
    apply extractResponseContent_head in E. simpl in W. now rewrite E in W.
Qed.

End ParserFacts.

(* ===================================================================== *)
(** ** Facts about the client *)
(* ===================================================================== *)

Section ClientFacts.

Lemma httpFailure_kind (status : N) (errorMessage : string) :
  In (code (httpFailure status errorMessage)) producedKinds.
Proof.
  unfold httpFailure.
  destruct (status =? 404)%N; [|destruct (status =? 500)%N];
    simpl; tauto.
Qed.

Lemma catchBlock_platform_kind (x : PlatformError) :
  In (code (catchBlock (ThrownByPlatform x))) producedKinds.
Proof.
  destruct x as [isTypeError name msg|rendered]; simpl.
  - destruct (String.eqb name "AbortError"); [|destruct isTypeError];
      simpl; tauto.
  - tauto.
Qed.

Lemma readErrorMessage_no_throw (r : HttpResponse) (t : Thrown) :
  readErrorMessage r <> Throw t.
Proof.
  unfold readErrorMessage.
  destruct (json r) as [[d|x]|]; try discriminate.
  destruct (error (asOllamaErrorResponse d)); discriminate.
Qed.

Lemma tryBlock_kind (p : Platform) (request : OllamaRequest) (e : OllamaError) :
  tryBlock p request = Throw (ThrownOllamaError e) ->
  In (code e) producedKinds.
Proof.
  unfold tryBlock.
  destruct (settled (exchange p request)) as [resp|x]; simpl; [|discriminate].
  destruct (ok resp); simpl.
  - destruct (json resp) as [[decoded|x]|]; simpl; try discriminate.
    intro H. apply normalizeResponse_throws in H.
    injection H as ->. simpl. tauto.
  - destruct (readErrorMessage resp) as [m|t|] eqn:E; simpl; try discriminate.
    + intro H. injection H as <-. apply httpFailure_kind.
    + now apply readErrorMessage_no_throw in E.
Qed.

Lemma exchange_late (p : Platform) (request : OllamaRequest) :
  match settlesAfter (fetch p endpoint (fetchInit request)) with
  | Some t => (timeoutMs < t)%N
  | None => True
  end ->
  exchange p request = {| settled := Rejected abortError; cancelled := true |}.
Proof.
  unfold exchange, awaitFetch.
  destruct (settlesAfter _) as [t|]; [|reflexivity].
  intro H.
  assert (Hlt : (t <? timeoutMs)%N = false) by (apply N.ltb_ge; lia).
  assert (Heq : (t =? timeoutMs)%N = false) by (apply N.eqb_neq; lia).
  now rewrite Hlt, Heq.
Qed.

Lemma includes_suffix (a m : string) : includes (a ++ m) m = true.
Proof.
  rewrite <- (append_empty_r m) at 1. apply includes_append.
Qed.

End ClientFacts.

(* ===================================================================== *)
(** ** The properties of the specification *)
(* ===================================================================== *)

(** C1, as the code has it: for the raw reply text [It is a cat], newline,
    [high], the parser skips the confidence line, removes the prefix
    [It is ] from the guess line and succeeds with the guess [a cat] (the
    article stays) and the confidence [high]. *)
Theorem C1_cat_reply_keeps_article (data : OllamaResponse) :
  messageText data = Some catReply ->
  normalizeResponse data =
  Return {| guess := "a cat"; confidence := high;
            duration_ms := durationMs data |}.
Proof.
  intro H.
  assert (E : extractResponseContent data = catReply).
  { unfold extractResponseContent. unfold messageText in H.
    destruct (reply_message data) as [m|]; [|discriminate].
    rewrite H. reflexivity. }
  rewrite normalizeResponse_parsed; rewrite E; [reflexivity | discriminate].
Qed.

Lemma C1_cat_reply_keeps_article_witness :
  normalizeResponse (replyWith catReply) =
  Return {| guess := "a cat"; confidence := high; duration_ms := 0 |}.
Proof. apply (C1_cat_reply_keeps_article (replyWith catReply)). reflexivity. Defined.

(** C1 as stated fails: on that reply the guess is not [cat]. *)
Lemma C1_guess_is_not_cat :
  ~ exists d, normalizeResponse (replyWith catReply) =
              Return {| guess := "cat"; confidence := high; duration_ms := d |}.
Proof. intros [d H]. vm_compute in H. discriminate H. Qed.

(** C2, as the code has it: whenever [guessDrawing] fails, what it throws
    is an [OllamaError] and its code is one of the seven codes the module
    constructs: the six of the specification and [OLLAMA_API_ERROR]. *)
Theorem C2_failures_are_typed (p : Platform) (img : string) (t : Thrown) :
  guessDrawing p img = Throw t ->
  exists e, t = ThrownOllamaError e /\ In (code e) producedKinds.
Proof.
  unfold guessDrawing.
  destruct (tryBlock p (buildRequest img)) as [r|[e|x]|] eqn:E;
    [discriminate| | |discriminate]; intro H; injection H as <-.
  - exists e. split; [reflexivity|]. now apply tryBlock_kind in E.
  - eexists. split; [reflexivity|]. apply catchBlock_platform_kind.
Qed.

Lemma C2_failures_are_typed_witness :
  exists e,
    ThrownOllamaError timeoutError = ThrownOllamaError e /\
    In (code e) producedKinds.
Proof.
  apply (C2_failures_are_typed hungBackend "iVBORw0KGgo=").
  reflexivity.
Defined.

(** C2 as stated fails: a completed exchange with status 503 fails with
    the code [OLLAMA_API_ERROR], which is none of the six listed kinds. *)
Lemma C2_status_503_outside_six_kinds :
  guessDrawing (respondingBackend 40 503 (Some "server busy") emptyReply)
               "iVBORw0KGgo="
  = Throw (ThrownOllamaError
             {| code := "OLLAMA_API_ERROR";
                message := "Ollama API error: server busy" |})
  /\ ~ In "OLLAMA_API_ERROR" specifiedKinds.
Proof.
  split; [reflexivity|].
  simpl. intros [H|[H|[H|[H|[H|[H|[]]]]]]]; discriminate H.
Qed.

(** C3: confidence extraction goes through all candidate lines in order,
    the line chosen as the guess and the lines around it alike, and answers
    with the first of high, medium, low it finds, letter case ignored: the
    level named by the first line that names one, [high] before [medium]
    before [low] within that line.  A result made from the candidate lines
    of a reply carries the level found, and carries [medium] when no
    candidate line names a level. *)
Theorem C3_confidence_scan (lines : list string) (data : OllamaResponse) :
  (forall c,
      extractConfidence lines = Some c <->
      exists before line after,
        lines = (before ++ line :: after)%list /\
        Forall (fun l => ~ namesConfidence l) before /\
        firstNamed line c)
  /\ (candidateLines (extractResponseContent data) <> [] ->
      (Forall (fun l => ~ namesConfidence l)
              (candidateLines (extractResponseContent data)) ->
       resolveConfidence (candidateLines (extractResponseContent data)) = medium)
      /\ forall r,
           normalizeResponse data = Return r ->
           (forall before line after c,
               candidateLines (extractResponseContent data)
               = (before ++ line :: after)%list ->
               Forall (fun l => ~ namesConfidence l) before ->
               firstNamed line c ->
               confidence r = c)
           /\ (Forall (fun l => ~ namesConfidence l)
                      (candidateLines (extractResponseContent data)) ->
               confidence r = medium)).
Proof.
  split.
  - intro c. apply extractConfidence_some.
  - intro Hlines. apply has_candidate_line_iff in Hlines.
    split; [apply resolveConfidence_default|].
    intros r H. rewrite (normalizeResponse_parsed _ Hlines) in H.
    cbv zeta in H.
    destruct (truthy (extractGuess _)); [|discriminate].
    injection H as <-. cbn [confidence]. split.
    + intros before line after c Hsplit Hbefore Hline.
      assert (E : extractConfidence
                    (candidateLines (extractResponseContent data)) = Some c).
      { apply extractConfidence_some. now exists before, line, after. }
      unfold resolveConfidence. now rewrite E.
    + apply resolveConfidence_default.
Qed.

Lemma C3_confidence_scan_witness :
  confidence {| guess := "a red balloon"; confidence := high;
                duration_ms := 0 |} = high
  /\ confidence {| guess := "a red balloon"; confidence := medium;
                   duration_ms := 0 |} = medium.
Proof.
  assert (Hnone : Forall (fun l => ~ namesConfidence l) ["a red balloon"]).
  { constructor; [|constructor].
    apply looksLikeConfidence_false_iff. reflexivity. }
  split.
  - pose proof (C3_confidence_scan []
                  (replyWith ("a red balloon" ++ nl ++ "Low, or maybe HIGH")))
      as (_ & H).
    destruct H as (_ & H); [discriminate|].
    destruct (H {| guess := "a red balloon"; confidence := high;
                   duration_ms := 0 |} eq_refl) as (Hfound & _).
    apply (Hfound ["a red balloon"] "Low, or maybe HIGH" []);
      [reflexivity | exact Hnone |].
    split.
    + apply mentions_iff. reflexivity.
    + intros c' Hr. simpl in Hr. lia.
  - pose proof (C3_confidence_scan [] (replyWith "a red balloon")) as (_ & H).
    destruct H as (_ & H); [discriminate|].
    destruct (H {| guess := "a red balloon"; confidence := medium;
                   duration_ms := 0 |} eq_refl) as (_ & Hdefault).
    apply Hdefault. exact Hnone.
Defined.

(** C4: when the reply carries no text (each of [message.content] and
    [response] is absent, empty or white space only) the parser succeeds
    with the guess [unclear] and the confidence [low], and so does the call
    that received it; no error is reported. *)
Theorem C4_blank_reply_is_unclear (data : OllamaResponse) :
  blankField (messageText data) ->
  blankField (response data) ->
  normalizeResponse data =
    Return {| guess := "unclear"; confidence := low;
              duration_ms := durationMs data |}
  /\ forall p img,
       completesWith p img data ->
       guessDrawing p img =
         Return {| guess := "unclear"; confidence := low;
                   duration_ms := durationMs data |}.
Proof.
  intros Hm Hr.
  assert (E : extractResponseContent data = "")
    by (apply extractResponseContent_empty_iff; auto).
  split.
  - now apply normalizeResponse_blank.
  - intros p img Hc. rewrite (guessDrawing_completes _ _ _ Hc).
    now apply normalizeResponse_blank.
Qed.

Lemma C4_blank_reply_is_unclear_witness :
  normalizeResponse (replyWith "   ") =
  Return {| guess := "unclear"; confidence := low; duration_ms := 0 |}.
Proof.
  apply (C4_blank_reply_is_unclear (replyWith "   ")); [reflexivity | exact I].
Defined.

(** C5: a success never carries an empty guess; the parser fails with
    [EMPTY_GUESS] exactly when the reply carries some text and guess
    extraction on its candidate lines yields the empty string; the reply
    that is just the line [high] is such a reply. *)
Theorem C5_guess_never_empty (data : OllamaResponse) :
  (forall r, normalizeResponse data = Return r -> guess r <> "")
  /\ ((exists e, normalizeResponse data = Throw (ThrownOllamaError e)
                 /\ code e = "EMPTY_GUESS")
      <-> (~ (blankField (messageText data) /\ blankField (response data))
           /\ extractGuess (candidateLines (extractResponseContent data)) = ""))
  /\ normalizeResponse (replyWith "high")
     = Throw (ThrownOllamaError emptyGuessError).
Proof.
  rewrite <- extractResponseContent_empty_iff.
  split; [|split; [|reflexivity]].
  - intros r H.
    destruct (string_dec (extractResponseContent data) "") as [E|E].
    + rewrite (normalizeResponse_blank _ E) in H. injection H as <-.
      discriminate.
    + rewrite (normalizeResponse_parsed _ E) in H. cbv zeta in H.
      destruct (truthy (extractGuess _)) eqn:G; [|discriminate].
      injection H as <-. simpl. now apply truthy_true_iff.
  - split.
    + intros (e & H & _).
      destruct (string_dec (extractResponseContent data) "") as [E|E].
      * rewrite (normalizeResponse_blank _ E) in H. discriminate.
      * split; [exact E|].
        rewrite (normalizeResponse_parsed _ E) in H. cbv zeta in H.
        destruct (truthy (extractGuess _)) eqn:G; [discriminate|].
        now apply truthy_false_iff.
    + intros [E G]. exists emptyGuessError. split; [|reflexivity].
      rewrite (normalizeResponse_parsed _ E). cbv zeta. now rewrite G.
Qed.

Lemma C5_guess_never_empty_witness :
  guess {| guess := "a red balloon"; confidence := medium; duration_ms := 0 |}
  <> "".
Proof.
  apply (proj1 (C5_guess_never_empty (replyWith "a red balloon"))).
  reflexivity.
Defined.

(** C6: an image that begins with a header [data:<mime>;base64,] goes into
    the request without that header, and an image that does not begin with
    such a header goes into the request unchanged. *)
Theorem C6_data_uri_header_removed (base64Image : string) :
  (forall mime payload,
      isMimeText mime ->
      base64Image = "data:" ++ mime ++ ";base64," ++ payload ->
      stripDataUriPrefix base64Image = payload
      /\ embeddedImages base64Image = [Some [payload]])
  /\ (~ hasDataUriPrefix base64Image ->
      stripDataUriPrefix base64Image = base64Image
      /\ embeddedImages base64Image = [Some [base64Image]]).
Proof.
  split.
  - intros mime payload Hm ->.
    pose proof (stripDataUriPrefix_header mime payload Hm) as E.
    split; [exact E|].
    unfold embeddedImages, buildRequest. cbn [messages map images].
    now rewrite E.
  - intro H. pose proof (stripDataUriPrefix_other _ H) as E.
    split; [exact E|].
    unfold embeddedImages, buildRequest. cbn [messages map images].
    now rewrite E.
Qed.

Lemma C6_data_uri_header_removed_witness :
  embeddedImages "data:image/png;base64,iVBORw0KGgo=" = [Some ["iVBORw0KGgo="]]
  /\ embeddedImages "iVBORw0KGgo=" = [Some ["iVBORw0KGgo="]].
Proof.
  split.
  - apply (proj1 (C6_data_uri_header_removed "data:image/png;base64,iVBORw0KGgo=")
                 "image/png" "iVBORw0KGgo=").
    + split; [discriminate|].
      simpl. intros [H|[H|[H|[H|[H|[H|[H|[H|[H|[]]]]]]]]]]; discriminate H.
    + reflexivity.
  - apply (proj2 (C6_data_uri_header_removed "iVBORw0KGgo=")).
    intros (mime & payload & _ & H). discriminate H.
Defined.




(** C8: a completed exchange with status 404 whose body decodes to an
    object with the [error] text [m] makes [guessDrawing] fail with the
    code [MODEL_NOT_FOUND] and a message that contains [m]. *)
Theorem C8_model_not_found (p : Platform) (img : string)
    (resp : HttpResponse) (decoded : DecodedJson) (m : string) :
  settled (exchange p (buildRequest img)) = Fulfilled resp ->
  status resp = 404%N ->
  json resp = Some (Fulfilled decoded) ->
  error (asOllamaErrorResponse decoded) = Some m ->
  exists e,
    guessDrawing p img = Throw (ThrownOllamaError e)
    /\ code e = "MODEL_NOT_FOUND"
    /\ includes (message e) m = true
    /\ (m <> "" -> message e = "Ollama model 'qwen3-vl' not found: " ++ m).
Proof.
  intros Hs Hst Hj He.
  assert (Hok : ok resp = false) by (unfold ok; now rewrite Hst).
  assert (Hmsg : readErrorMessage resp =
                 Return (if truthy m then m
                         else "Ollama API returned status " ++ ofN (status resp)))
    by (unfold readErrorMessage; now rewrite Hj, He).
  eexists. split.
  - unfold guessDrawing, tryBlock. rewrite Hs. simpl.
    rewrite Hok, Hmsg. simpl. reflexivity.
  - unfold httpFailure. rewrite Hst. cbn [N.eqb Pos.eqb code message].
    split; [reflexivity|]. destruct m as [|c m]; cbn [truthy].
    + split; [|congruence]. rewrite includes_unfold.
      cbn [append startsWith]. reflexivity.
    + split; [apply includes_suffix | reflexivity].
Qed.

Lemma C8_model_not_found_witness :
  exists e,
    guessDrawing (respondingBackend 35 404 (Some "model not found") emptyReply)
                 "iVBORw0KGgo="
    = Throw (ThrownOllamaError e)
    /\ code e = "MODEL_NOT_FOUND"
    /\ includes (message e) "model not found" = true
    /\ ("model not found" <> "" ->
        message e = "Ollama model 'qwen3-vl' not found: " ++ "model not found").
Proof.
  eapply (C8_model_not_found
            (respondingBackend 35 404 (Some "model not found") emptyReply)
            "iVBORw0KGgo=");
    reflexivity.
Defined.

(** C10: when every candidate line of a reply contains high, medium or
    low, letter case ignored, be it inside an ordinary word, guess
    extraction skips them all and the parser fails with [EMPTY_GUESS]; the
    reply [flower], [high] is one, [flower] contains [low] and is a word of
    the game's list.  The replies meant have candidate lines: a reply
    without text has no line to skip. *)
Theorem C10_keyword_inside_word (data : OllamaResponse) :
  (candidateLines (extractResponseContent data) <> [] ->
   Forall namesConfidence (candidateLines (extractResponseContent data)) ->
   extractGuess (candidateLines (extractResponseContent data)) = ""
   /\ normalizeResponse data = Throw (ThrownOllamaError emptyGuessError)
   /\ forall p img, completesWith p img data ->
        guessDrawing p img = Throw (ThrownOllamaError emptyGuessError))
  /\ candidateLines (extractResponseContent (replyWith flowerReply))
     = ["flower"; "high"]
  /\ ciSubstring "low" "flower"
  /\ normalizeResponse (replyWith flowerReply)
     = Throw (ThrownOllamaError emptyGuessError)
  /\ In "flower" WORD_LIST.
Proof.
  split; [|split; [reflexivity|split; [|split; [reflexivity|]]]].
  - intros Hlines Hall.
    assert (E : extractResponseContent data <> "").
    { intro E. apply Hlines. rewrite E. reflexivity. }
    assert (G := extractGuess_all_skipped _ Hall).
    assert (R : normalizeResponse data = Throw (ThrownOllamaError emptyGuessError)).
    { rewrite (normalizeResponse_parsed _ E). cbv zeta. now rewrite G. }
    split; [exact G|]. split; [exact R|].
    intros p img Hc. now rewrite (guessDrawing_completes _ _ _ Hc).
  - exists "f", "low", "er". split; reflexivity.
  - simpl. tauto.
Qed.

Lemma C10_keyword_inside_word_witness :
  normalizeResponse (replyWith ("Flower" ++ nl ++ "yellow petals"))
  = Throw (ThrownOllamaError emptyGuessError).
Proof.
  apply (proj1 (C10_keyword_inside_word
                  (replyWith ("Flower" ++ nl ++ "yellow petals")))).
  - discriminate.
  - change (Forall namesConfidence ["Flower"; "yellow petals"]).
    constructor; [|constructor; [|constructor]];
      apply looksLikeConfidence_iff; reflexivity.
Defined.

(* ===================================================================== *)
(** ** More about the reply parser *)
(* ===================================================================== *)

Section ParserMore.

Lemma ciSubstring_inside (kw sub a b : string) :
  ciSubstring kw sub -> ciSubstring kw (a ++ sub ++ b).
Proof.
  intros (pre & mid & post & -> & H).
  exists (a ++ pre), mid, (post ++ b). split; [|exact H].
  now rewrite !append_assoc.
Qed.

Lemma namesConfidence_inside (sub a b : string) :
  namesConfidence sub -> namesConfidence (a ++ sub ++ b).
Proof.
  intros [H|[H|H]]; [left|right; left|right; right];
    now apply ciSubstring_inside.
Qed.

Lemma removePrefix_suffix (i : bool) (re : Pattern) (s : string) :
  exists p, s = p ++ removePrefix i re s.
Proof.
  unfold removePrefix. destruct (exec i re s) as [r|] eqn:E.
  - destruct (exec_sound _ _ _ _ E) as (p & Hp & _). now exists p.
  - now exists "".
Qed.

Lemma trimStart_suffix (s : string) : exists a, s = a ++ trimStart s.
Proof.
  induction s as [|c s [a IH]]; simpl.
  - now exists "".
  - destruct (isWhiteSpace c).
    + exists (String c a). simpl. now rewrite <- IH.
    + now exists "".
Qed.

Lemma trimEnd_prefix (s : string) : exists b, s = trimEnd s ++ b.
Proof.
  induction s as [|c s [b IH]]; simpl.
  - now exists "".
  - destruct (trimEnd s) as [|d t] eqn:E.
    + destruct (isWhiteSpace c).
      * now exists (String c s).
      * exists s. reflexivity.
    + exists b. simpl. now rewrite IH at 1.
Qed.

Lemma trim_inside (s : string) : exists a b, s = a ++ trim s ++ b.
Proof.
  unfold trim. destruct (trimStart_suffix s) as [a Ha].
  destruct (trimEnd_prefix (trimStart s)) as [b Hb].
  exists a, b. now rewrite <- Hb.
Qed.

(** What [cleanLine] keeps is a piece of the line. *)
Lemma cleanLine_inside (line : string) :
  exists a b, line = a ++ cleanLine line ++ b.
Proof.
  unfold cleanLine.
  destruct (removePrefix_suffix true guessPrefixRegex line) as [p1 H1].
  destruct (removePrefix_suffix true answerPrefixRegex
              (removePrefix true guessPrefixRegex line)) as [p2 H2].
  destruct (removePrefix_suffix true itIsRegex
              (removePrefix true answerPrefixRegex
                 (removePrefix true guessPrefixRegex line))) as [p3 H3].
  destruct (trim_inside
              (removePrefix true itIsRegex
                 (removePrefix true answerPrefixRegex
                    (removePrefix true guessPrefixRegex line)))) as (a & b & H4).
  exists (p1 ++ p2 ++ p3 ++ a), b.
  rewrite H1 at 1. rewrite H2 at 1. rewrite H3 at 1. rewrite H4 at 1.
  now rewrite !append_assoc.
Qed.

(** A non-empty guess is the cleaned text of one of the lines, and that
    line names no confidence level. *)
Lemma extractGuess_source (lines : list string) :
  extractGuess lines <> "" ->
  exists line, In line lines /\ looksLikeConfidence line = false
               /\ extractGuess lines = cleanLine line.
Proof.
  induction lines as [|l rest IH]; simpl; [congruence|].
  destruct (looksLikeConfidence l) eqn:Hl.
  - intro H. destruct (IH H) as (line & Hin & Hc & E). eauto.
  - destruct (truthy (cleanLine l)) eqn:Ht.
    + intros _. exists l. auto.
    + intro H. destruct (IH H) as (line & Hin & Hc & E). eauto.
Qed.

Lemma split_inside (sep : ascii) (s l : string) :
  In l (split sep s) -> exists a b, s = a ++ l ++ b.
Proof.
  revert l. induction s as [|c s IH]; intros l; simpl.
  - intros [<-|[]]. now exists "", "".
  - destruct (Ascii.eqb_spec c sep) as [->|Hc].
    + intros [<-|H].
      * now exists "", (String sep s).
      * destruct (IH _ H) as (a & b & ->). now exists (String sep a), b.
    + destruct (split sep s) as [|h t] eqn:E; [now apply split_not_nil in E|].
      intros [<-|H].
      * destruct (IH h (or_introl eq_refl)) as (a & b & Hs).
        (* [h] is the first piece, so it starts the text *)
        assert (Hh : exists b', s = h ++ b').
        { clear -E. revert h t E. induction s as [|d s IHs]; intros h t E;
            simpl in E.
          - injection E as <- <-. now exists "".
          - destruct (Ascii.eqb d sep).
            + injection E as <- <-. now exists (String d s).
            + destruct (split sep s) as [|h' t'] eqn:E';
                [now apply split_not_nil in E'|].
              injection E as <- <-.
              destruct (IHs _ _ eq_refl) as [b' ->]. now exists b'. }
        destruct Hh as [b' ->]. now exists "", b'.
      * destruct (IH l (or_intror H)) as (a & b & ->).
        now exists (String c a), b.
Qed.

Lemma candidateLines_inside (s l : string) :
  In l (candidateLines s) -> exists a b, s = a ++ l ++ b.
Proof.
  unfold candidateLines. intro H.
  apply filter_In in H as [H _]. apply in_map_iff in H as (l0 & <- & H).
  destruct (split_inside _ _ _ H) as (a & b & ->).
  destruct (trim_inside l0) as (a' & b' & Hl).
  exists (a ++ a'), (b' ++ b). rewrite Hl at 1. now rewrite !append_assoc.
Qed.

End ParserMore.

Section RoundTrip.

Lemma trimEnd_idem (s : string) : trimEnd (trimEnd s) = trimEnd s.
Proof.
  induction s as [|c s IH]; simpl; [reflexivity|].
  destruct (trimEnd s) as [|d t] eqn:E.
  - destruct (isWhiteSpace c) eqn:W; simpl; [reflexivity|]. now rewrite W.
  - simpl in *. now rewrite IH.
Qed.

Lemma trim_idem (s : string) : trim (trim s) = trim s.
Proof.
  destruct (trim s) as [|c t] eqn:E; [reflexivity|].
  pose proof (trim_head _ _ _ E) as W.
  unfold trim in *. simpl. rewrite W. rewrite <- E. apply trimEnd_idem.
Qed.

Lemma trimmed_head (c : ascii) (t : string) :
  trim (String c t) = String c t -> isWhiteSpace c = false.
Proof. apply trim_head. Qed.

Lemma trimmed_trimEnd (g : string) : trim g = g -> trimEnd g = g.
Proof.
  intro H. destruct g as [|c t]; [reflexivity|].
  pose proof (trimmed_head _ _ H) as W.
  unfold trim in H. simpl in H. now rewrite W in H.
Qed.

Lemma trimEnd_append (a b : string) :
  trimEnd b <> "" -> trimEnd (a ++ b) = a ++ trimEnd b.
Proof.
  intro H. induction a as [|c a IH]; simpl; [reflexivity|].
  rewrite IH. destruct (a ++ trimEnd b) as [|d t] eqn:E; [|reflexivity].
  destruct a; simpl in E; [congruence | discriminate].
Qed.

Lemma trim_append (a b : string) :
  a <> "" -> trim a = a -> b <> "" -> trimEnd b = b -> trim (a ++ b) = a ++ b.
Proof.
  intros Ha Ta Hb Tb. destruct a as [|c a]; [congruence|].
  pose proof (trimmed_head _ _ Ta) as W.
  unfold trim. simpl. rewrite W.
  change (String c (a ++ b)) with (String c a ++ b).
  rewrite trimEnd_append; [now rewrite Tb | now rewrite Tb].
Qed.

Lemma no_LF_cons (c : ascii) (s : string) :
  allChars (fun c => negb (Ascii.eqb c LF)) (String c s) = true ->
  Ascii.eqb c LF = false /\ allChars (fun c => negb (Ascii.eqb c LF)) s = true.
Proof.
  simpl. intro H. apply andb_true_iff in H as [H1 H2].
  now apply negb_true_iff in H1.
Qed.

Lemma split_one_line (s : string) :
  allChars (fun c => negb (Ascii.eqb c LF)) s = true -> split LF s = [s].
Proof.
  induction s as [|c s IH]; [reflexivity|].
  intro H. apply no_LF_cons in H as [Hc Hs]. simpl.
  now rewrite Hc, (IH Hs).
Qed.

Lemma split_first_line (a b : string) :
  allChars (fun c => negb (Ascii.eqb c LF)) a = true ->
  split LF (a ++ nl ++ b) = a :: split LF b.
Proof.
  induction a as [|c a IH]; [reflexivity|].
  intro H. apply no_LF_cons in H as [Hc Ha]. simpl.
  rewrite Hc. simpl in IH. now rewrite (IH Ha).
Qed.

Lemma two_candidate_lines (a b : string) :
  a <> "" -> trim a = a -> allChars (fun c => negb (Ascii.eqb c LF)) a = true ->
  b <> "" -> trim b = b -> allChars (fun c => negb (Ascii.eqb c LF)) b = true ->
  trim (a ++ nl ++ b) = a ++ nl ++ b
  /\ candidateLines (a ++ nl ++ b) = [a; b].
Proof.
  intros Ha Ta La Hb Tb Lb. split.
  - apply trim_append; auto.
    + destruct b; discriminate.
    + pose proof (trimmed_trimEnd _ Tb) as Eb.
      rewrite trimEnd_append; now rewrite Eb.
  - unfold candidateLines.
    rewrite (split_first_line _ _ La), (split_one_line _ Lb).
    simpl. rewrite Ta, Tb.
    destruct a; [congruence|]. destruct b; [congruence|]. reflexivity.
Qed.

Lemma plainGuess_spec (g : string) :
  plainGuess g = true ->
  g <> "" /\ trim g = g
  /\ allChars (fun c => negb (Ascii.eqb c LF)) g = true
  /\ looksLikeConfidence g = false /\ cleanLine g = g.
Proof.
  unfold plainGuess. rewrite !andb_true_iff, negb_true_iff, !String.eqb_eq.
  intros [[[[H1 H2] H3] H4] H5]. apply truthy_true_iff in H1. auto.
Qed.

Lemma confidenceText_line (c : Confidence) :
  confidenceText c <> "" /\ trim (confidenceText c) = confidenceText c
  /\ allChars (fun c => negb (Ascii.eqb c LF)) (confidenceText c) = true
  /\ looksLikeConfidence (confidenceText c) = true
  /\ extractConfidence [confidenceText c] = Some c.
Proof. destruct c; repeat split; discriminate. Qed.

Lemma extractResponseContent_replyWith (text : string) :
  extractResponseContent (replyWith text) = trim text.
Proof.
  unfold extractResponseContent, replyWith. simpl.
  now destruct (trim text).
Qed.

End RoundTrip.

Section GuessFacts.

Lemma extractConfidence_skip (l : string) (rest : list string) :
  looksLikeConfidence l = false ->
  extractConfidence (l :: rest) = extractConfidence rest.
Proof.
  intro H. apply looksLikeConfidence_false_iff in H.
  destruct (not_named_mentions _ H) as (Hh & Hm & Hl).
  simpl. now rewrite Hh, Hm, Hl.
Qed.

Lemma extractConfidence_head (l : string) (rest : list string) (c : Confidence) :
  extractConfidence [l] = Some c -> extractConfidence (l :: rest) = Some c.
Proof.
  simpl. destruct (mentions "high" l); [auto|].
  destruct (mentions "medium" l); [auto|].
  destruct (mentions "low" l); [auto|discriminate].
Qed.

Lemma list_ascii_of_string_append (a b : string) :
  list_ascii_of_string (a ++ b)
  = (list_ascii_of_string a ++ list_ascii_of_string b)%list.
Proof. induction a as [|c a IH]; simpl; [reflexivity | now rewrite IH]. Qed.

Lemma split_no_sep (sep : ascii) (s l : string) :
  In l (split sep s) -> ~ In sep (list_ascii_of_string l).
Proof.
  revert l. induction s as [|c s IH]; intros l; simpl.
  - intros [<-|[]]. simpl. tauto.
  - destruct (Ascii.eqb_spec c sep) as [->|Hc].
    + intros [<-|H]; [simpl; tauto | now apply IH].
    + destruct (split sep s) as [|h t] eqn:E; [now apply split_not_nil in E|].
      intros [<-|H].
      * simpl. intros [Hs|Hin]; [congruence|].
        apply (IH h); [now left | exact Hin].
      * apply IH. now right.
Qed.

Lemma candidateLines_no_LF (s l : string) :
  In l (candidateLines s) -> ~ In LF (list_ascii_of_string l).
Proof.
  unfold candidateLines. intro H.
  apply filter_In in H as [H _]. apply in_map_iff in H as (l0 & <- & H).
  apply split_no_sep in H. intro Hin. apply H.
  destruct (trim_inside l0) as (a & b & E). rewrite E.
  rewrite !list_ascii_of_string_append. apply in_or_app. right.
  apply in_or_app. now left.
Qed.

Lemma cleanLine_trimmed (line : string) : trim (cleanLine line) = cleanLine line.
Proof. unfold cleanLine. apply trim_idem. Qed.

(** A parsed result, looked at from the reply: the reply carries text, and
    the guess is the cleaned text of one of its candidate lines, one that
    names no confidence level. *)
Lemma normalizeResponse_guess_line (data : OllamaResponse) (r : GuessResult) :
  normalizeResponse data = Return r ->
  extractResponseContent data <> "" ->
  exists line,
    In line (candidateLines (extractResponseContent data))
    /\ looksLikeConfidence line = false
    /\ guess r = cleanLine line
    /\ guess r <> "".
Proof.
  intros H E. rewrite (normalizeResponse_parsed _ E) in H. cbv zeta in H.
  destruct (truthy (extractGuess _)) eqn:G; [|discriminate].
  injection H as <-. simpl. apply truthy_true_iff in G.
  destruct (extractGuess_source _ G) as (line & Hin & Hl & Hg). eauto.
Qed.

End GuessFacts.

(* ===================================================================== *)
(** ** Further properties of the reply parser *)
(* ===================================================================== *)

(** The two-line reply and its swapped form are read back exactly. *)
Lemma two_line_reply_parsed (g : string) (c : Confidence) :
  plainGuess g = true ->
  normalizeResponse (replyWith (twoLineReply g c))
    = Return {| guess := g; confidence := c; duration_ms := 0 |}
  /\ normalizeResponse (replyWith (swappedReply g c))
    = Return {| guess := g; confidence := c; duration_ms := 0 |}.
Proof.
  intro Hg. apply plainGuess_spec in Hg as (Hne & Ht & Hl & Hk & Hc).
  destruct (confidenceText_line c) as (Kne & Kt & Kl & Kk & Kc).
  assert (Tg : truthy g = true) by now apply truthy_true_iff.
  split.
  - destruct (two_candidate_lines g (confidenceText c) Hne Ht Hl Kne Kt Kl)
      as [Etrim Elines].
    assert (E : extractResponseContent (replyWith (twoLineReply g c))
                = g ++ nl ++ confidenceText c)
      by (rewrite extractResponseContent_replyWith; exact Etrim).
    rewrite normalizeResponse_parsed; rewrite E;
      [|destruct g; [congruence | discriminate]].
    cbv zeta. rewrite Elines.
    assert (G : extractGuess [g; confidenceText c] = g)
      by (simpl; now rewrite Hk, Hc, Tg).
    assert (R : resolveConfidence [g; confidenceText c] = c).
    { unfold resolveConfidence.
      now rewrite (extractConfidence_skip _ _ Hk), Kc. }
    now rewrite G, R, Tg.
  - destruct (two_candidate_lines (confidenceText c) g Kne Kt Kl Hne Ht Hl)
      as [Etrim Elines].
    assert (E : extractResponseContent (replyWith (swappedReply g c))
                = confidenceText c ++ nl ++ g)
      by (rewrite extractResponseContent_replyWith; exact Etrim).
    rewrite normalizeResponse_parsed; rewrite E;
      [|destruct c; discriminate].
    cbv zeta. rewrite Elines.
    assert (G : extractGuess [confidenceText c; g] = g)
      by (simpl; now rewrite Kk, Hk, Hc, Tg).
    assert (R : resolveConfidence [confidenceText c; g] = c).
    { unfold resolveConfidence.
      now rewrite (extractConfidence_head _ _ _ Kc). }
    now rewrite G, R, Tg.
Qed.

(** X1: a reply in the format the prompt asks for is read back exactly.
    For a guess on one line, without surrounding white space, that names no
    confidence level and carries no removable prefix, and for each of the
    three levels, the two-line reply "guess, level" parses to that guess
    and that level, and so does the reply with the two lines swapped. *)
Theorem X1_two_line_reply_round_trip (g : string) (c : Confidence) :
  plainGuess g = true ->
  normalizeResponse (replyWith (twoLineReply g c))
    = Return {| guess := g; confidence := c; duration_ms := 0 |}
  /\ normalizeResponse (replyWith (swappedReply g c))
    = Return {| guess := g; confidence := c; duration_ms := 0 |}.
Proof. apply two_line_reply_parsed. Qed.

Lemma X1_two_line_reply_round_trip_witness :
  normalizeResponse (replyWith (twoLineReply "ice cream" low))
    = Return {| guess := "ice cream"; confidence := low; duration_ms := 0 |}
  /\ normalizeResponse (replyWith (swappedReply "ice cream" low))
    = Return {| guess := "ice cream"; confidence := low; duration_ms := 0 |}.
Proof. apply (X1_two_line_reply_round_trip "ice cream" low). reflexivity. Defined.

(** X2: the words of the game against the parser.  For every word of
    [WORD_LIST] except [flower] and every level, the reply "word, level"
    parses to that word and that level; for [flower] it fails with
    [EMPTY_GUESS], whatever the level. *)
Theorem X2_game_words_parse (w : string) (c : Confidence) :
  In w WORD_LIST ->
  (w <> "flower" ->
   normalizeResponse (replyWith (twoLineReply w c))
   = Return {| guess := w; confidence := c; duration_ms := 0 |})
  /\ (w = "flower" ->
      normalizeResponse (replyWith (twoLineReply w c))
      = Throw (ThrownOllamaError emptyGuessError)).
Proof.
  intro Hin. split.
  - intro Hw.
    assert (Hall : forallb (fun w => String.eqb w "flower" || plainGuess w)
                     WORD_LIST = true) by (vm_compute; reflexivity).
    rewrite forallb_forall in Hall. specialize (Hall _ Hin).
    apply orb_true_iff in Hall as [H|H].
    + apply String.eqb_eq in H. congruence.
    + now apply two_line_reply_parsed.
  - intros ->. destruct c; reflexivity.
Qed.

Lemma X2_game_words_parse_witness :
  normalizeResponse (replyWith (twoLineReply "rainbow" medium))
  = Return {| guess := "rainbow"; confidence := medium; duration_ms := 0 |}.
Proof.
  apply (proj1 (X2_game_words_parse "rainbow" medium
                  ltac:(simpl; tauto))).
  discriminate.
Defined.

(** X3: no result ever carries a guess that contains high, medium or low,
    letter case ignored: a subject whose name contains one of them
    (flower, yellow, highway) is never returned. *)
Theorem X3_guess_names_no_level (data : OllamaResponse) (r : GuessResult) :
  normalizeResponse data = Return r -> ~ namesConfidence (guess r).
Proof.
  intro H.
  destruct (string_dec (extractResponseContent data) "") as [E|E].
  - rewrite (normalizeResponse_blank _ E) in H. injection H as <-.
    apply looksLikeConfidence_false_iff. reflexivity.
  - destruct (normalizeResponse_guess_line _ _ H E) as (line & _ & Hl & -> & _).
    apply looksLikeConfidence_false_iff in Hl. intro Hn. apply Hl.
    destruct (cleanLine_inside line) as (a & b & Eline).
    rewrite Eline. now apply namesConfidence_inside.
Qed.

Lemma X3_guess_names_no_level_witness :
  ~ namesConfidence
      (guess {| guess := "a cat"; confidence := high; duration_ms := 0 |}).
Proof.
  apply (X3_guess_names_no_level (replyWith catReply)). reflexivity.
Defined.

(** X4: the parser never invents text.  The guess of a result is either
    the fallback [unclear] of a reply without text, or a piece of the
    reply text: it occurs in it verbatim, has no white space at either end
    and no line break inside. *)
Theorem X4_guess_is_a_piece_of_the_reply (data : OllamaResponse)
    (r : GuessResult) :
  normalizeResponse data = Return r ->
  (extractResponseContent data = "" /\ guess r = "unclear")
  \/ (extractResponseContent data <> ""
      /\ includes (extractResponseContent data) (guess r) = true
      /\ trim (guess r) = guess r
      /\ ~ In LF (list_ascii_of_string (guess r))).
Proof.
  intro H.
  destruct (string_dec (extractResponseContent data) "") as [E|E].
  - left. rewrite (normalizeResponse_blank _ E) in H. injection H as <-. auto.
  - right. split; [exact E|].
    destruct (normalizeResponse_guess_line _ _ H E) as (line & Hin & _ & -> & _).
    destruct (cleanLine_inside line) as (a & b & Eline).
    split; [|split].
    + apply includes_iff.
      destruct (candidateLines_inside _ _ Hin) as (a' & b' & Eraw).
      exists (a' ++ a), (b ++ b'). rewrite Eraw at 1. rewrite Eline at 1.
      now rewrite !append_assoc.
    + apply cleanLine_trimmed.
    + intro Hlf. apply (candidateLines_no_LF _ _ Hin).
      rewrite Eline, !list_ascii_of_string_append.
      apply in_or_app. right. apply in_or_app. now left.
Qed.

Lemma X4_guess_is_a_piece_of_the_reply_witness :
  (extractResponseContent (replyWith catReply) = ""
   /\ guess {| guess := "a cat"; confidence := high; duration_ms := 0 |}
      = "unclear")
  \/ (extractResponseContent (replyWith catReply) <> ""
      /\ includes (extractResponseContent (replyWith catReply))
           (guess {| guess := "a cat"; confidence := high; duration_ms := 0 |})
         = true
      /\ trim (guess {| guess := "a cat"; confidence := high; duration_ms := 0 |})
         = guess {| guess := "a cat"; confidence := high; duration_ms := 0 |}
      /\ ~ In LF (list_ascii_of_string
                    (guess {| guess := "a cat"; confidence := high;
                              duration_ms := 0 |}))).
Proof.
  apply (X4_guess_is_a_piece_of_the_reply (replyWith catReply)). reflexivity.
Defined.

(** X5: guess extraction takes the first usable line.  The guess is [g]
    (not empty) exactly when some line cleans to [g] and names no
    confidence level, while every line before it names a level or cleans to
    nothing; the guess is empty exactly when every line names a level or
    cleans to nothing. *)
Theorem X5_extractGuess_first_usable_line (lines : list string) (g : string) :
  (g <> "" ->
   (extractGuess lines = g <->
    exists before line after,
      lines = (before ++ line :: after)%list
      /\ Forall (fun l => namesConfidence l \/ cleanLine l = "") before
      /\ ~ namesConfidence line
      /\ cleanLine line = g))
  /\ (extractGuess lines = ""
      <-> Forall (fun l => namesConfidence l \/ cleanLine l = "") lines).
Proof.
  split.
  - intro Hg. split.
    + induction lines as [|l rest IH]; simpl; [congruence|].
      destruct (looksLikeConfidence l) eqn:Hl.
      * intro H. destruct (IH H) as (before & line & after & -> & Hb & Hn & Hc).
        exists (l :: before), line, after. split; [reflexivity|].
        split; [|auto]. constructor; [|exact Hb].
        left. now apply looksLikeConfidence_iff.
      * destruct (truthy (cleanLine l)) eqn:Ht.
        -- intro H. exists [], l, rest. split; [reflexivity|].
           split; [constructor|]. split; [|exact H].
           now apply looksLikeConfidence_false_iff.
        -- intro H.
           destruct (IH H) as (before & line & after & -> & Hb & Hn & Hc).
           exists (l :: before), line, after. split; [reflexivity|].
           split; [|auto]. constructor; [|exact Hb].
           right. now apply truthy_false_iff.
    + intros (before & line & after & -> & Hb & Hn & Hc).
      induction Hb as [|l before Hl _ IH]; simpl.
      * apply looksLikeConfidence_false_iff in Hn. rewrite Hn, Hc.
        apply truthy_true_iff in Hg. now rewrite Hg.
      * destruct (looksLikeConfidence l) eqn:El; [exact IH|].
        destruct Hl as [Hl|Hl].
        -- apply looksLikeConfidence_iff in Hl. congruence.
        -- now rewrite Hl.
  - induction lines as [|l rest IH]; simpl.
    + split; auto.
    + destruct (looksLikeConfidence l) eqn:Hl.
      * rewrite IH. split.
        -- intro H. constructor; [|exact H].
           left. now apply looksLikeConfidence_iff.
        -- intro H. now inversion H.
      * destruct (truthy (cleanLine l)) eqn:Ht.
        -- split.
           ++ intro H. apply truthy_true_iff in Ht. congruence.
           ++ intro H. inversion H as [|? ? [Hn|Hc] _]; subst.
              ** apply looksLikeConfidence_iff in Hn. congruence.
              ** apply truthy_true_iff in Ht. congruence.
        -- rewrite IH. split.
           ++ intro H. constructor; [|exact H].
              right. now apply truthy_false_iff.
           ++ intro H. now inversion H.
Qed.

Lemma X5_extractGuess_first_usable_line_witness :
  extractGuess ["high"; "Guess:"; "Answer: dog"; "cat"] = "dog".
Proof.
  apply (proj1 (X5_extractGuess_first_usable_line
                  ["high"; "Guess:"; "Answer: dog"; "cat"] "dog")).
  - discriminate.
  - exists ["high"; "Guess:"], "Answer: dog", ["cat"].
    split; [reflexivity|]. split; [|split; [|reflexivity]].
    + constructor; [|constructor; [|constructor]].
      * left. apply looksLikeConfidence_iff. reflexivity.
      * right. reflexivity.
    + apply looksLikeConfidence_false_iff. reflexivity.
Defined.

(* ===================================================================== *)
(** ** Facts about the prefix expressions *)
(* ===================================================================== *)

Section PrefixFacts.

Lemma string_length_append (a b : string) :
  String.length (a ++ b) = String.length a + String.length b.
Proof. induction a as [|c a IH]; simpl; [reflexivity | now rewrite IH]. Qed.

Lemma append_same_length (p s : string) :
  String.length (p ++ s) = String.length s -> p = "".
Proof.
  rewrite string_length_append. destruct p; [reflexivity|]. simpl. lia.
Qed.

Lemma removePrefix_length (i : bool) (re : Pattern) (s : string) :
  String.length (removePrefix i re s) <= String.length s.
Proof.
  destruct (removePrefix_suffix i re s) as [p H].
  rewrite H at 2. rewrite string_length_append. lia.
Qed.

Lemma removePrefix_same_length (i : bool) (re : Pattern) (s : string) :
  String.length (removePrefix i re s) = String.length s ->
  removePrefix i re s = s.
Proof.
  intro L. destruct (removePrefix_suffix i re s) as [p H].
  rewrite H in L at 2. symmetry in L. apply append_same_length in L.
  subst p. now rewrite H at 2.
Qed.

Lemma trim_length (s : string) : String.length (trim s) <= String.length s.
Proof.
  destruct (trim_inside s) as (a & b & H). rewrite H at 2.
  rewrite !string_length_append. lia.
Qed.

(** A line that [cleanLine] leaves as it is carries none of the prefixes. *)
Lemma cleanLine_fixed (s : string) :
  cleanLine s = s ->
  removePrefix true guessPrefixRegex s = s
  /\ removePrefix true answerPrefixRegex s = s
  /\ removePrefix true itIsRegex s = s.
Proof.
  unfold cleanLine. intro H.
  pose proof (removePrefix_length true guessPrefixRegex s) as L1.
  pose proof (removePrefix_length true answerPrefixRegex
                (removePrefix true guessPrefixRegex s)) as L2.
  pose proof (removePrefix_length true itIsRegex
                (removePrefix true answerPrefixRegex
                   (removePrefix true guessPrefixRegex s))) as L3.
  pose proof (trim_length
                (removePrefix true itIsRegex
                   (removePrefix true answerPrefixRegex
                      (removePrefix true guessPrefixRegex s)))) as L4.
  rewrite H in L4.
  assert (E1 : removePrefix true guessPrefixRegex s = s)
    by (apply removePrefix_same_length; lia).
  rewrite E1 in *.
  assert (E2 : removePrefix true answerPrefixRegex s = s)
    by (apply removePrefix_same_length; lia).
  rewrite E2 in *.
  assert (E3 : removePrefix true itIsRegex s = s)
    by (apply removePrefix_same_length; lia).
  auto.
Qed.

(** Under the [i] flag a lower-case pattern letter matches every code unit
    that [toLowerCase] sends to it. *)
Lemma sameChar_lower (c p : ascii) :
  toLowerChar c = p -> isLowerLetter p = true -> sameChar true p c = true.
Proof.
  intros <- H.
  destruct c as [[] [] [] [] [] [] [] []];
    vm_compute in H; try discriminate H; reflexivity.
Qed.

Lemma lower_letter_not_space (c p : ascii) :
  toLowerChar c = p -> isLowerLetter p = true -> isWhiteSpace c = false.
Proof.
  intros <- H.
  destruct c as [[] [] [] [] [] [] [] []];
    vm_compute in H; try discriminate H; reflexivity.
Qed.

Lemma sameChar_other_letter (c : ascii) (p q : ascii) :
  toLowerChar c = p -> isLowerLetter p = true -> isLowerLetter q = true ->
  p <> q -> sameChar true q c = false.
Proof.
  intros <- Hp Hq Hne.
  unfold sameChar. apply Ascii.eqb_neq. intro E. apply Hne.
  destruct c as [[] [] [] [] [] [] [] []];
    vm_compute in Hp; try discriminate Hp;
    destruct q as [[] [] [] [] [] [] [] []];
    vm_compute in Hq; try discriminate Hq;
    vm_compute in E; try discriminate E; reflexivity.
Qed.

Lemma exec_lit_ci (w label : string) (re : Pattern) (s : string) :
  toLowerCase label = w -> allChars isLowerLetter w = true ->
  exec true (lit w ++ re)%list (label ++ s) = exec true re s.
Proof.
  revert label. induction w as [|p w IH]; intros label E L.
  - destruct label; [reflexivity | discriminate].
  - destruct label as [|c label]; [discriminate|].
    simpl in E. injection E as Ec Ew.
    simpl in L. apply andb_true_iff in L as [Lp Lw].
    cbn [lit app append exec accepts].
    rewrite (sameChar_lower _ _ Ec Lp). now apply IH.
Qed.

Lemma exec_lit_ci_other (w label : string) (re : Pattern) (s : string)
    (p q : ascii) (w' : string) :
  w = String q w' ->
  (exists c rest, label = String c rest /\ toLowerChar c = p) ->
  isLowerLetter p = true -> isLowerLetter q = true -> p <> q ->
  exec true (lit w ++ re)%list (label ++ s) = None.
Proof.
  intros -> (c & rest & -> & Ec) Lp Lq Hne.
  cbn [lit app append exec accepts].
  now rewrite (sameChar_other_letter _ _ _ Ec Lp Lq Hne).
Qed.

Lemma whitespaceOnly_allChars (i : bool) (s : string) :
  allChars (accepts i Space) s = whitespaceOnly s.
Proof. induction s as [|c s IH]; simpl; [reflexivity | now rewrite IH]. Qed.

(** [\s*] in front of text that does not begin with white space, when the
    rest of the pattern then matches. *)
Lemma exec_spaces (ws s r : string) (re : Pattern) :
  whitespaceOnly ws = true ->
  match s with EmptyString => True | String c _ => isWhiteSpace c = false end ->
  exec true re s = Some r ->
  exec true (ZeroOrMore Space :: re) (ws ++ s) = Some r.
Proof.
  intros Hws Hs Hk. cbn [exec].
  apply greedy_run; [now rewrite whitespaceOnly_allChars | exact Hs | exact Hk].
Qed.

(** [\s+] likewise. *)
Lemma exec_spaces_plus (ws s r : string) (re : Pattern) :
  ws <> "" -> whitespaceOnly ws = true ->
  match s with EmptyString => True | String c _ => isWhiteSpace c = false end ->
  exec true re s = Some r ->
  exec true (OneOrMore Space :: re) (ws ++ s) = Some r.
Proof.
  intros Hne Hws Hs Hk. destruct ws as [|w ws]; [congruence|].
  simpl in Hws. apply andb_true_iff in Hws as [Hw Hws].
  cbn [exec append accepts]. rewrite Hw.
  apply greedy_run; [now rewrite whitespaceOnly_allChars | exact Hs | exact Hk].
Qed.

Lemma separator_cases (sep : ascii) :
  isLabelSeparator sep = true ->
  isWhiteSpace sep = false
  /\ accepts true (AnyOf [":"%char; "-"%char]) sep = true.
Proof.
  unfold isLabelSeparator. intro H. apply orb_true_iff in H as [H|H];
    apply Ascii.eqb_eq in H; subst sep; split; reflexivity.
Qed.

(** The label expressions remove a label in any letter case, its separator
    and the white space around the separator. *)
Lemma label_removed (w label ws1 ws2 body : string) (sep : ascii) :
  toLowerCase label = w -> allChars isLowerLetter w = true ->
  whitespaceOnly ws1 = true -> isLabelSeparator sep = true ->
  whitespaceOnly ws2 = true ->
  match body with EmptyString => True | String c _ => isWhiteSpace c = false end ->
  removePrefix true
    (lit w ++ [ZeroOrMore Space; Once (AnyOf [":"%char; "-"%char]);
               ZeroOrMore Space])%list
    (label ++ ws1 ++ String sep (ws2 ++ body)) = body.
Proof.
  intros El Lw H1 Hsep H2 Hb.
  destruct (separator_cases _ Hsep) as [Sws Sacc].
  unfold removePrefix. rewrite (exec_lit_ci _ _ _ _ El Lw).
  rewrite (exec_spaces ws1 (String sep (ws2 ++ body)) body); auto.
  cbn [exec]. rewrite Sacc.
  apply greedy_run;
    [now rewrite whitespaceOnly_allChars | exact Hb | reflexivity].
Qed.

Lemma it_is_removed (it ws1 is' ws2 body : string) :
  toLowerCase it = "it" -> toLowerCase is' = "is" ->
  ws1 <> "" -> whitespaceOnly ws1 = true ->
  ws2 <> "" -> whitespaceOnly ws2 = true ->
  match body with EmptyString => True | String c _ => isWhiteSpace c = false end ->
  removePrefix true itIsRegex (it ++ ws1 ++ is' ++ ws2 ++ body) = body.
Proof.
  intros Eit Eis N1 H1 N2 H2 Hb.
  assert (Hi : match is' ++ ws2 ++ body with
               | EmptyString => True
               | String c _ => isWhiteSpace c = false
               end).
  { destruct is' as [|c rest]; [discriminate|]. simpl in Eis.
    injection Eis as Ec _. simpl.
    now apply (lower_letter_not_space c "i"). }
  assert (K : exec true (lit "is" ++ [OneOrMore Space])%list
                (is' ++ ws2 ++ body) = Some body).
  { rewrite (exec_lit_ci "is" is' _ _ Eis eq_refl).
    now apply exec_spaces_plus. }
  unfold removePrefix, itIsRegex.
  rewrite (exec_lit_ci "it" it _ _ Eit eq_refl). cbn [app].
  now rewrite (exec_spaces_plus ws1 (is' ++ ws2 ++ body) body _ N1 H1 Hi K).
Qed.

Lemma plainGuess_head (body : string) :
  plainGuess body = true ->
  match body with EmptyString => True | String c _ => isWhiteSpace c = false end.
Proof.
  intro H. apply plainGuess_spec in H as (_ & Ht & _).
  destruct body as [|c t]; [exact I|]. now apply trimmed_head in Ht.
Qed.

End PrefixFacts.

Lemma removePrefix_other_label (w label s : string) (re : Pattern)
    (p q : ascii) (w' : string) :
  w = String q w' ->
  (exists c rest, label = String c rest /\ toLowerChar c = p) ->
  isLowerLetter p = true -> isLowerLetter q = true -> p <> q ->
  removePrefix true (lit w ++ re)%list (label ++ s) = label ++ s.
Proof.
  intros Hw Hl Lp Lq Hne. unfold removePrefix.
  now rewrite (exec_lit_ci_other w label re s p q w' Hw Hl Lp Lq Hne).
Qed.

Lemma first_letter (label w : string) (p : ascii) (w' : string) :
  toLowerCase label = w -> w = String p w' ->
  exists c rest, label = String c rest /\ toLowerChar c = p.
Proof.
  intros E ->. destruct label as [|c rest]; [discriminate|].
  simpl in E. injection E as Ec _. eauto.
Qed.

(** X6: the boilerplate in front of a guess is removed whatever its letter
    case and spacing.  For a plain guess [body]: a line made of the label
    guess or answer in any letter case, any white space, a colon or a
    hyphen, any white space and [body] cleans to [body]; so does a line
    made of "it", white space, "is", white space and [body]. *)
Theorem X6_prefixes_removed (body : string) :
  plainGuess body = true ->
  (forall label ws1 sep ws2,
      toLowerCase label = "guess" \/ toLowerCase label = "answer" ->
      whitespaceOnly ws1 = true -> isLabelSeparator sep = true ->
      whitespaceOnly ws2 = true ->
      cleanLine (label ++ ws1 ++ String sep (ws2 ++ body)) = body)
  /\ (forall it ws1 is' ws2,
        toLowerCase it = "it" -> toLowerCase is' = "is" ->
        ws1 <> "" -> whitespaceOnly ws1 = true ->
        ws2 <> "" -> whitespaceOnly ws2 = true ->
        cleanLine (it ++ ws1 ++ is' ++ ws2 ++ body) = body).
Proof.
  intro Hp. pose proof (plainGuess_head _ Hp) as Hb.
  apply plainGuess_spec in Hp as (_ & Ht & _ & _ & Hc).
  destruct (cleanLine_fixed _ Hc) as (Fg & Fa & Fi).
  split.
  - intros label ws1 sep ws2 [El|El] H1 Hs H2; unfold cleanLine.
    + unfold guessPrefixRegex at 1.
      rewrite (label_removed "guess" label ws1 ws2 body sep El eq_refl H1 Hs H2 Hb).
      now rewrite Fa, Fi.
    + unfold guessPrefixRegex at 1.
      rewrite (removePrefix_other_label "guess" label _ _ "a" "g" "uess"
                 eq_refl (first_letter _ _ _ _ El eq_refl) eq_refl eq_refl);
        [|discriminate].
      unfold answerPrefixRegex at 1.
      rewrite (label_removed "answer" label ws1 ws2 body sep El eq_refl H1 Hs H2 Hb).
      now rewrite Fi.
  - intros it ws1 is' ws2 Eit Eis N1 H1 N2 H2. unfold cleanLine.
    unfold guessPrefixRegex at 1.
    rewrite (removePrefix_other_label "guess" it _ _ "i" "g" "uess"
               eq_refl (first_letter _ _ _ _ Eit eq_refl) eq_refl eq_refl);
      [|discriminate].
    unfold answerPrefixRegex at 1.
    rewrite (removePrefix_other_label "answer" it _ _ "i" "a" "nswer"
               eq_refl (first_letter _ _ _ _ Eit eq_refl) eq_refl eq_refl);
      [|discriminate].
    now rewrite (it_is_removed it ws1 is' ws2 body Eit Eis N1 H1 N2 H2 Hb).
Qed.

Lemma X6_prefixes_removed_witness :
  cleanLine ("GuEsS" ++ " " ++ String "-" ("  " ++ "ice cream")) = "ice cream"
  /\ cleanLine ("IT" ++ "  " ++ "Is" ++ " " ++ "ice cream") = "ice cream".
Proof.
  pose proof (X6_prefixes_removed "ice cream" eq_refl) as [Hlabel Hit].
  split.
  - apply Hlabel; [left|..]; reflexivity.
  - apply Hit; try reflexivity; discriminate.
Defined.

(* ===================================================================== *)
(** ** Further properties of [guessDrawing] *)
(* ===================================================================== *)

Section ClientMore.

Lemma exchange_in_time (p : Platform) (request : OllamaRequest) (t : N) :
  settlesAfter (fetch p endpoint (fetchInit request)) = Some t ->
  (t < timeoutMs)%N ->
  exchange p request =
  {| settled := settlement (fetch p endpoint (fetchInit request));
     cancelled := false |}.
Proof.
  intros Hs Ht. unfold exchange, awaitFetch. rewrite Hs.
  apply N.ltb_lt in Ht. now rewrite Ht.
Qed.

Lemma exchange_fulfilled_not_aborted (p : Platform) (request : OllamaRequest)
    (resp : HttpResponse) :
  settled (exchange p request) = Fulfilled resp ->
  abortCalled (exchange p request) = false.
Proof. intro H. unfold abortCalled, timerCleared. now rewrite H. Qed.

Lemma exchange_rejected_aborted (p : Platform) (request : OllamaRequest)
    (x : PlatformError) :
  settled (exchange p request) = Rejected x ->
  abortCalled (exchange p request) = true.
Proof. intro H. unfold abortCalled, timerCleared. now rewrite H. Qed.

Lemma exchange_fulfilled_not_cancelled (p : Platform) (request : OllamaRequest)
    (resp : HttpResponse) :
  settled (exchange p request) = Fulfilled resp ->
  cancelled (exchange p request) = false.
Proof.
  unfold exchange, awaitFetch.
  destruct (match settlesAfter _ with Some _ => _ | None => _ end);
    simpl; [reflexivity | discriminate].
Qed.

Lemma guessDrawing_rejected (p : Platform) (img : string) (x : PlatformError) :
  settled (exchange p (buildRequest img)) = Rejected x ->
  guessDrawing p img = Throw (ThrownOllamaError (catchBlock (ThrownByPlatform x))).
Proof. intro H. unfold guessDrawing, tryBlock. now rewrite H. Qed.

Lemma guessDrawing_body_rejected (p : Platform) (img : string)
    (resp : HttpResponse) (x : PlatformError) :
  settled (exchange p (buildRequest img)) = Fulfilled resp ->
  ok resp = true -> json resp = Some (Rejected x) ->
  guessDrawing p img = Throw (ThrownOllamaError (catchBlock (ThrownByPlatform x))).
Proof.
  intros H Hok Hj. unfold guessDrawing, tryBlock. rewrite H. simpl.
  now rewrite Hok, Hj.
Qed.

Lemma normalizeResponse_never_hangs (data : OllamaResponse) :
  normalizeResponse data <> Hangs.
Proof.
  unfold normalizeResponse.
  destruct (truthy (extractResponseContent data)); simpl; [|discriminate].
  destruct (truthy (extractGuess _)); discriminate.
Qed.

End ClientMore.

(** X7: a response whose status is not in 200-299 never yields a guess,
    whatever its body carries, and the kind of failure follows from the
    status alone: [MODEL_NOT_FOUND] for 404, [OLLAMA_SERVER_ERROR] for 500,
    [OLLAMA_API_ERROR] for any other; when the body is not JSON the
    message falls back to the status line. *)
Theorem X7_status_decides_the_failure (p : Platform) (img : string)
    (resp : HttpResponse) (body : Settlement DecodedJson) :
  settled (exchange p (buildRequest img)) = Fulfilled resp ->
  ok resp = false ->
  json resp = Some body ->
  exists e,
    guessDrawing p img = Throw (ThrownOllamaError e)
    /\ code e = (if (status resp =? 404)%N then "MODEL_NOT_FOUND"
                 else if (status resp =? 500)%N then "OLLAMA_SERVER_ERROR"
                 else "OLLAMA_API_ERROR")
    /\ (forall x, body = Rejected x ->
          exists label,
            message e = label ++ "Ollama API returned status " ++ ofN (status resp)).
Proof.
  intros Hs Hok Hj.
  assert (Hm : exists m, readErrorMessage resp = Return m
                 /\ (forall x, body = Rejected x ->
                       m = "Ollama API returned status " ++ ofN (status resp))).
  { unfold readErrorMessage. rewrite Hj. destruct body as [d|x].
    - destruct (error (asOllamaErrorResponse d)); eexists;
        (split; [reflexivity | discriminate]).
    - eexists. split; [reflexivity | reflexivity]. }
  destruct Hm as (m & Hm & Hdefault).
  exists (httpFailure (status resp) m). split; [|split].
  - unfold guessDrawing, tryBlock. rewrite Hs. simpl. now rewrite Hok, Hm.
  - unfold httpFailure.
    destruct (status resp =? 404)%N; [|destruct (status resp =? 500)%N];
      reflexivity.
  - intros x Hx. rewrite <- (Hdefault x Hx). unfold httpFailure.
    destruct (status resp =? 404)%N; [|destruct (status resp =? 500)%N];
      eexists; reflexivity.
Qed.

Lemma X7_status_decides_the_failure_witness :
  exists e,
    guessDrawing (respondingBackend 40 500 None (replyWith catReply))
                 "iVBORw0KGgo="
    = Throw (ThrownOllamaError e)
    /\ code e = "OLLAMA_SERVER_ERROR".
Proof.
  destruct (X7_status_decides_the_failure
              (respondingBackend 40 500 None (replyWith catReply))
              "iVBORw0KGgo=" _ _ eq_refl eq_refl eq_refl) as (e & H1 & H2 & _).
  exists e. split; [exact H1 | exact H2].
Defined.

(** X8: a rejection is reported by what was rejected with.  When [fetch]
    rejects before the deadline, or the body of a 2xx response fails to
    decode, with an error that is not named AbortError, the call fails
    with [NETWORK_ERROR] for a [TypeError] and with [UNKNOWN_ERROR]
    otherwise, and the message ends with the message of the error; an
    error named AbortError is reported as [TIMEOUT] although the timer
    cancelled nothing.  A rejection of [fetch] leaves the timer armed,
    since [clearTimeout] is skipped: it still calls [controller.abort()]
    when the 120 seconds are over, on a request that has failed already;
    once a response has arrived the timer is cleared and never does. *)
Theorem X8_rejections_are_classified (p : Platform) (img : string)
    (isTypeError : bool) (name msg : string) :
  let failure :=
    if String.eqb name "AbortError" then timeoutError
    else if isTypeError then
      {| code := "NETWORK_ERROR";
         message := "Failed to connect to Ollama API: " ++ msg |}
    else
      {| code := "UNKNOWN_ERROR"; message := "Unexpected error: " ++ msg |} in
  ((exists t,
       settlesAfter (fetch p endpoint (fetchInit (buildRequest img))) = Some t
       /\ (t < 120000)%N
       /\ settlement (fetch p endpoint (fetchInit (buildRequest img)))
          = Rejected (ErrorObject isTypeError name msg)) ->
   requestCancelled p img = false
   /\ requestAborted p img = true
   /\ guessDrawing p img = Throw (ThrownOllamaError failure))
  /\ ((exists resp,
         settled (exchange p (buildRequest img)) = Fulfilled resp
         /\ ok resp = true
         /\ json resp = Some (Rejected (ErrorObject isTypeError name msg))) ->
      requestCancelled p img = false
      /\ requestAborted p img = false
      /\ guessDrawing p img = Throw (ThrownOllamaError failure)).
Proof.
  intro failure. subst failure. split.
  - intros (t & Hs & Ht & Hr).
    pose proof (exchange_in_time _ _ _ Hs Ht) as E. rewrite Hr in E.
    split; [unfold requestCancelled; now rewrite E|].
    split; [unfold requestAborted; now rewrite E|].
    rewrite (guessDrawing_rejected p img (ErrorObject isTypeError name msg)).
    + simpl. destruct (String.eqb name "AbortError"); [reflexivity|].
      now destruct isTypeError.
    + now rewrite E.
  - intros (resp & Hs & Hok & Hj).
    split; [now apply (exchange_fulfilled_not_cancelled _ _ resp)|].
    split; [now apply (exchange_fulfilled_not_aborted _ _ resp)|].
    rewrite (guessDrawing_body_rejected p img resp _ Hs Hok Hj).
    simpl. destruct (String.eqb name "AbortError"); [reflexivity|].
    now destruct isTypeError.
Qed.

Lemma X8_rejections_are_classified_witness :
  requestAborted
    {| fetch := fun _ _ =>
         {| settlesAfter := Some 3%N;
            settlement := Rejected (ErrorObject true "TypeError" "fetch failed") |};
       timerFirstOnTie := true |}
    "iVBORw0KGgo=" = true
  /\ guessDrawing
       {| fetch := fun _ _ =>
            {| settlesAfter := Some 3%N;
               settlement := Rejected (ErrorObject true "TypeError" "fetch failed") |};
          timerFirstOnTie := true |}
       "iVBORw0KGgo="
     = Throw (ThrownOllamaError
                {| code := "NETWORK_ERROR";
                   message := "Failed to connect to Ollama API: fetch failed" |}).
Proof.
  apply (proj1 (X8_rejections_are_classified
           {| fetch := fun _ _ =>
                {| settlesAfter := Some 3%N;
                   settlement := Rejected (ErrorObject true "TypeError" "fetch failed") |};
              timerFirstOnTie := true |}
           "iVBORw0KGgo=" true "TypeError" "fetch failed")).
  exists 3%N. repeat split.
Defined.

(** X9: a result comes from a 2xx response only.  Whenever [guessDrawing]
    returns a result, the request was not aborted, the exchange completed
    with a status in 200-299, the body decoded, and the result is what the
    parser makes of that body. *)
Theorem X9_result_needs_successful_exchange (p : Platform) (img : string)
    (r : GuessResult) :
  guessDrawing p img = Return r ->
  requestAborted p img = false
  /\ exists data, completesWith p img data /\ normalizeResponse data = Return r.
Proof.
  unfold guessDrawing, tryBlock, requestAborted.
  destruct (settled (exchange p (buildRequest img))) as [resp|x] eqn:Hs;
    simpl; [|discriminate].
  destruct (ok resp) eqn:Hok; simpl.
  - destruct (json resp) as [[d|x]|] eqn:Hj; simpl; try discriminate.
    destruct (normalizeResponse (asOllamaResponse d)) as [r'|t|] eqn:Hn;
      try discriminate.
    intro H. injection H as <-.
    split; [now apply (exchange_fulfilled_not_aborted _ _ resp)|].
    exists (asOllamaResponse d). split; [|exact Hn].
    exists resp, d. auto.
  - destruct (readErrorMessage resp); discriminate.
Qed.

Lemma X9_result_needs_successful_exchange_witness :
  requestAborted (respondingBackend 900 200 None (replyWith catReply))
                 "iVBORw0KGgo=" = false.
Proof.
  apply (X9_result_needs_successful_exchange
           (respondingBackend 900 200 None (replyWith catReply)) "iVBORw0KGgo="
           {| guess := "a cat"; confidence := high; duration_ms := 0 |}).
  reflexivity.
Defined.

(** X10: the call can stay pending only while it reads a body.  It never
    settles exactly when a response arrived before the deadline and the
    promise of [response.json()] never settles; waiting for the response
    itself always ends. *)
Theorem X10_pending_only_on_the_body (p : Platform) (img : string) :
  guessDrawing p img = Hangs
  <-> exists resp,
        settled (exchange p (buildRequest img)) = Fulfilled resp
        /\ json resp = None.
Proof.
  unfold guessDrawing, tryBlock. split.
  - destruct (settled (exchange p (buildRequest img))) as [resp|x] eqn:Hs;
      simpl; [|discriminate].
    intro H. exists resp. split; [reflexivity|].
    destruct (ok resp); simpl in H.
    + destruct (json resp) as [[d|x]|]; simpl in H; try discriminate;
        [|reflexivity].
      destruct (normalizeResponse (asOllamaResponse d)) eqn:Hn;
        try discriminate.
      now apply normalizeResponse_never_hangs in Hn.
    + unfold readErrorMessage in H.
      destruct (json resp) as [[d|x]|]; [| |reflexivity]; simpl in H.
      * destruct (error (asOllamaErrorResponse d)); discriminate.
      * discriminate.
  - intros (resp & Hs & Hj). rewrite Hs. simpl.
    unfold readErrorMessage. rewrite Hj. now destruct (ok resp).
Qed.

Lemma X10_pending_only_on_the_body_witness :
  guessDrawing
    {| fetch := fun _ _ =>
         {| settlesAfter := Some 20%N;
            settlement := Fulfilled {| status := 200; json := None |} |};
       timerFirstOnTie := true |}
    "iVBORw0KGgo="
  = Hangs.
Proof.
  apply X10_pending_only_on_the_body.
  exists {| status := 200; json := None |}. split; reflexivity.
Defined.

(* ===================================================================== *)
(** ** Properties of the route [/api/guess] *)
(* ===================================================================== *)

Section RouteFacts.

Lemma length_zero_iff (s : string) : (String.length s =? 0)%nat = true <-> s = "".
Proof. destruct s; simpl; split; congruence. Qed.

Lemma blank_image_tests (image : string) :
  whitespaceOnly image = true <->
  negb (truthy image) = true \/ (String.length (trim image) =? 0)%nat = true.
Proof.
  rewrite length_zero_iff, trim_empty_iff, negb_true_iff, truthy_false_iff.
  split; [auto|]. intros [->|H]; [reflexivity | exact H].
Qed.

(** An image with text in it goes to [guessDrawing]. *)
Lemma routeTry_valid (p : Platform) (image : string) :
  whitespaceOnly image = false ->
  routeTry p (JsonValue (ImageText image)) =
  (result <- guessDrawing p image ;;
   Return {| payload := GuessPayload
               {| r_guess := guess result;
                  r_confidence := confidenceText (confidence result);
                  r_duration_ms := duration_ms result |};
             httpStatus := 200 |}).
Proof.
  intro H. simpl.
  destruct (negb (truthy image)) eqn:E1.
  - assert (W : whitespaceOnly image = true) by (apply blank_image_tests; auto).
    congruence.
  - destruct (String.length (trim image) =? 0)%nat eqn:E2; [|reflexivity].
    assert (W : whitespaceOnly image = true) by (apply blank_image_tests; auto).
    congruence.
Qed.

Lemma routeTry_malformed (p : Platform) (request : RequestJson) :
  malformedRequest request ->
  exists msg, routeTry p request = Return (badRequest msg).
Proof.
  destruct request as [x| |[image|]]; simpl.
  - eauto.
  - tauto.
  - intro W. apply blank_image_tests in W.
    destruct (negb (truthy image)); [eauto|].
    destruct W as [W|W]; [discriminate|]. rewrite W. eauto.
  - eauto.
Qed.

(** A malformed request never reaches [guessDrawing]. *)
Lemma routeTry_malformed_any (p p' : Platform) (request : RequestJson) :
  malformedRequest request -> routeTry p request = routeTry p' request.
Proof.
  destruct request as [x| |[image|]]; simpl; try reflexivity.
  intro W. apply blank_image_tests in W.
  destruct (negb (truthy image)); [reflexivity|].
  destruct W as [W|W]; [discriminate|]. now rewrite W.
Qed.

Lemma guessDrawing_hangs_iff (p : Platform) (img : string) :
  guessDrawing p img = Hangs
  <-> exists resp,
        settled (exchange p (buildRequest img)) = Fulfilled resp
        /\ json resp = None.
Proof.
  unfold guessDrawing, tryBlock. split.
  - destruct (settled (exchange p (buildRequest img))) as [resp|x] eqn:Hs;
      simpl; [|discriminate].
    intro H. exists resp. split; [reflexivity|].
    destruct (ok resp); simpl in H.
    + destruct (json resp) as [[d|x]|]; simpl in H; try discriminate;
        [|reflexivity].
      destruct (normalizeResponse (asOllamaResponse d)) eqn:Hn;
        try discriminate.
      now apply normalizeResponse_never_hangs in Hn.
    + unfold readErrorMessage in H.
      destruct (json resp) as [[d|x]|]; [| |reflexivity]; simpl in H.
      * destruct (error (asOllamaErrorResponse d)); discriminate.
      * discriminate.
  - intros (resp & Hs & Hj). rewrite Hs. simpl.
    unfold readErrorMessage. rewrite Hj. now destruct (ok resp).
Qed.

Lemma guessDrawing_throws_ollama (p : Platform) (img : string) (t : Thrown) :
  guessDrawing p img = Throw t -> exists e, t = ThrownOllamaError e.
Proof.
  unfold guessDrawing. destruct (tryBlock p (buildRequest img));
    try discriminate. intro H. injection H as <-. eauto.
Qed.

Lemma getStatusCodeForError_range (code : string) :
  getStatusCodeForError code = 500%N \/ getStatusCodeForError code = 503%N
  \/ getStatusCodeForError code = 504%N.
Proof.
  unfold getStatusCodeForError.
  repeat match goal with |- context [if ?b then _ else _] => destruct b end;
    auto.
Qed.

(** A result of [guessDrawing] is a result of the parser. *)
Lemma guessDrawing_result_parsed (p : Platform) (img : string) (r : GuessResult) :
  guessDrawing p img = Return r ->
  exists data, normalizeResponse data = Return r.
Proof.
  unfold guessDrawing, tryBlock.
  destruct (settled (exchange p (buildRequest img))) as [resp|x];
    simpl; [|discriminate].
  destruct (ok resp); simpl.
  - destruct (json resp) as [[d|x]|]; simpl; try discriminate.
    destruct (normalizeResponse (asOllamaResponse d)) as [r'|t|] eqn:Hn;
      try discriminate.
    intro H. injection H as <-. eauto.
  - destruct (readErrorMessage resp); discriminate.
Qed.

(** The handler on a request that is not malformed and not [null]. *)
Lemma POST_valid (p : Platform) (request : RequestJson) :
  ~ malformedRequest request -> request <> JsonNull ->
  exists image,
    request = JsonValue (ImageText image) /\ whitespaceOnly image = false
    /\ POST p request =
       match guessDrawing p image with
       | Return result =>
           Return {| payload := GuessPayload
                       {| r_guess := guess result;
                          r_confidence := confidenceText (confidence result);
                          r_duration_ms := duration_ms result |};
                     httpStatus := 200 |}
       | Throw error => Return (routeCatch error)
       | Hangs => Hangs
       end.
Proof.
  intros Hm Hn. destruct request as [x| |[image|]]; simpl in Hm;
    try tauto; try congruence.
  exists image. split; [reflexivity|].
  assert (W : whitespaceOnly image = false)
    by (destruct (whitespaceOnly image); congruence).
  split; [exact W|].
  unfold POST. rewrite (routeTry_valid _ _ W).
  now destruct (guessDrawing p image).
Qed.

End RouteFacts.

(** X11: the route turns a malformed request away before the backend is
    involved.  It answers 400 exactly when the body is not JSON, or its
    [image] is not a string, or is empty or white space only; the answer is
    then the same for every backend. *)
Theorem X11_bad_request (p : Platform) (request : RequestJson) :
  ((exists response,
       POST p request = Return response /\ httpStatus response = 400%N)
   <-> malformedRequest request)
  /\ (malformedRequest request ->
      forall p', POST p' request = POST p request).
Proof.
  split; [split|].
  - intros (response & H & Hst).
    destruct request as [x| |[image|]]; simpl; auto.
    + unfold POST in H. simpl in H. injection H as <-. discriminate.
    + destruct (whitespaceOnly image) eqn:W; [reflexivity|]. exfalso.
      unfold POST in H. rewrite (routeTry_valid _ _ W) in H.
      destruct (guessDrawing p image) as [r|t|] eqn:G; simpl in H;
        try discriminate; injection H as <-; simpl in Hst; [discriminate|].
      destruct (guessDrawing_throws_ollama _ _ _ G) as [e ->]. simpl in Hst.
      destruct (getStatusCodeForError_range (code e)) as [E|[E|E]];
        rewrite E in Hst; discriminate.
  - intro Hm. destruct (routeTry_malformed p _ Hm) as [msg E].
    exists (badRequest msg). unfold POST. now rewrite E.
  - intros Hm p'. unfold POST.
    now rewrite (routeTry_malformed_any p' p _ Hm).
Qed.

Lemma X11_bad_request_witness :
  (exists response,
      POST hungBackend (JsonValue (ImageText "   ")) = Return response
      /\ httpStatus response = 400%N)
  /\ POST (respondingBackend 900 200 None (replyWith catReply))
          (JsonValue (ImageText "   "))
     = POST hungBackend (JsonValue (ImageText "   ")).
Proof.
  split.
  - apply (proj1 (X11_bad_request hungBackend (JsonValue (ImageText "   ")))).
    reflexivity.
  - apply (proj2 (X11_bad_request hungBackend (JsonValue (ImageText "   ")))).
    reflexivity.
Defined.

(** X12: the route answers 200 exactly when the image carries text and
    [guessDrawing] returned a result for it; the payload then carries the
    guess, the confidence and the duration of that result, and the guess is
    not empty. *)
Theorem X12_ok_response (p : Platform) (request : RequestJson)
    (response : NextResponse) :
  POST p request = Return response /\ httpStatus response = 200%N
  <-> exists image result,
        request = JsonValue (ImageText image)
        /\ whitespaceOnly image = false
        /\ guessDrawing p image = Return result
        /\ guess result <> ""
        /\ response =
           {| payload := GuessPayload
                {| r_guess := guess result;
                   r_confidence := confidenceText (confidence result);
                   r_duration_ms := duration_ms result |};
              httpStatus := 200 |}.
Proof.
  split.
  - intros [H Hst].
    destruct request as [x| |[image|]];
      try (unfold POST in H; simpl in H; injection H as <-; discriminate).
    destruct (whitespaceOnly image) eqn:W.
    + destruct (routeTry_malformed p (JsonValue (ImageText image)) W) as [m E].
      unfold POST in H. rewrite E in H. injection H as <-. discriminate.
    + unfold POST in H. rewrite (routeTry_valid _ _ W) in H.
      destruct (guessDrawing p image) as [r|t|] eqn:G; simpl in H;
        try discriminate; injection H as <-.
      * exists image, r. repeat split; auto.
        destruct (guessDrawing_result_parsed p image r G) as (data & Hn).
        intro Hg. revert Hn Hg. clear. intros Hn Hg.
        destruct (string_dec (extractResponseContent data) "") as [E|E].
        -- rewrite (normalizeResponse_blank _ E) in Hn. injection Hn as <-.
           discriminate.
        -- destruct (normalizeResponse_guess_line _ _ Hn E)
             as (line & _ & _ & _ & Hne). congruence.
      * destruct (guessDrawing_throws_ollama _ _ _ G) as [e ->].
        simpl in Hst.
        destruct (getStatusCodeForError_range (code e)) as [E|[E|E]];
          rewrite E in Hst; discriminate.
  - intros (image & result & -> & W & G & _ & ->). split; [|reflexivity].
    unfold POST. rewrite (routeTry_valid _ _ W), G. reflexivity.
Qed.

Lemma X12_ok_response_witness :
  POST (respondingBackend 900 200 None (replyWith catReply))
       (JsonValue (ImageText "iVBORw0KGgo="))
  = Return {| payload := GuessPayload
                {| r_guess := "a cat"; r_confidence := "high";
                   r_duration_ms := 0 |};
              httpStatus := 200 |}
  /\ httpStatus {| payload := GuessPayload
                     {| r_guess := "a cat"; r_confidence := "high";
                        r_duration_ms := 0 |};
                   httpStatus := 200 |} = 200%N.
Proof.
  apply (X12_ok_response (respondingBackend 900 200 None (replyWith catReply))
                         (JsonValue (ImageText "iVBORw0KGgo="))).
  exists "iVBORw0KGgo=",
         {| guess := "a cat"; confidence := high; duration_ms := 0 |}.
  repeat split. discriminate.
Defined.

(** X13: a failure of [guessDrawing] reaches the caller of the route with
    its message and its code, under the status 504 for [TIMEOUT], 503 for
    [MODEL_NOT_FOUND], [OLLAMA_SERVER_ERROR] and [NETWORK_ERROR], and 500
    for [EMPTY_GUESS], [OLLAMA_API_ERROR] and [UNKNOWN_ERROR]; these are
    the only cases. *)
Theorem X13_failures_through_the_route (p : Platform) (image : string)
    (t : Thrown) :
  whitespaceOnly image = false ->
  guessDrawing p image = Throw t ->
  exists e,
    t = ThrownOllamaError e
    /\ POST p (JsonValue (ImageText image))
       = Return {| payload := ErrorPayload {| r_error := message e;
                                              r_code := Some (code e) |};
                   httpStatus := getStatusCodeForError (code e) |}
    /\ ((code e = "TIMEOUT" /\ getStatusCodeForError (code e) = 504%N)
        \/ (In (code e) ["MODEL_NOT_FOUND"; "OLLAMA_SERVER_ERROR"; "NETWORK_ERROR"]
            /\ getStatusCodeForError (code e) = 503%N)
        \/ (In (code e) ["EMPTY_GUESS"; "OLLAMA_API_ERROR"; "UNKNOWN_ERROR"]
            /\ getStatusCodeForError (code e) = 500%N)).
Proof.
  intros W G.
  assert (K : exists e, t = ThrownOllamaError e /\ In (code e) producedKinds).
  { revert G. unfold guessDrawing.
    destruct (tryBlock p (buildRequest image)) as [r|[e|x]|] eqn:E;
      try discriminate; intro H; injection H as <-.
    - exists e. split; [reflexivity|]. now apply tryBlock_kind in E.
    - eexists. split; [reflexivity|]. apply catchBlock_platform_kind. }
  destruct K as (e & -> & Hk). exists e. split; [reflexivity|]. split.
  - unfold POST. rewrite (routeTry_valid _ _ W), G. reflexivity.
  - simpl in Hk.
    destruct Hk as [H|[H|[H|[H|[H|[H|[H|[]]]]]]]]; rewrite <- H; simpl;
      tauto.
Qed.

Lemma X13_failures_through_the_route_witness :
  exists e,
    ThrownOllamaError
      {| code := "MODEL_NOT_FOUND";
         message := "Ollama model 'qwen3-vl' not found: model not found" |}
    = ThrownOllamaError e
    /\ POST (respondingBackend 35 404 (Some "model not found") emptyReply)
            (JsonValue (ImageText "iVBORw0KGgo="))
       = Return {| payload := ErrorPayload {| r_error := message e;
                                              r_code := Some (code e) |};
                   httpStatus := getStatusCodeForError (code e) |}.
Proof.
  destruct (X13_failures_through_the_route
              (respondingBackend 35 404 (Some "model not found") emptyReply)
              "iVBORw0KGgo=" _ eq_refl eq_refl) as (e & H1 & H2 & _).
  exists e. split; [exact H1 | exact H2].
Defined.

(** X14: the deadline seen from the route.  For an image with text in it:
    when the head of the backend's response (status line and headers) has
    not arrived within 120 seconds the route answers 504 with the code
    [TIMEOUT]; the deadline does not cover the body, and the route gives no
    answer at all exactly when a response arrived before the deadline and
    its body never finishes. *)
Theorem X14_gateway_timeout (p : Platform) (image : string) :
  whitespaceOnly image = false ->
  (match settlesAfter (fetch p endpoint (fetchInit (buildRequest image))) with
   | Some t => (120000 < t)%N
   | None => True
   end ->
   POST p (JsonValue (ImageText image))
   = Return {| payload := ErrorPayload
                 {| r_error := "Ollama API request timed out after 120 seconds";
                    r_code := Some "TIMEOUT" |};
               httpStatus := 504 |})
  /\ (POST p (JsonValue (ImageText image)) = Hangs
      <-> exists resp,
            settled (exchange p (buildRequest image)) = Fulfilled resp
            /\ json resp = None).
Proof.
  intro W. split.
  - intro H. apply exchange_late in H.
    assert (G : guessDrawing p image = Throw (ThrownOllamaError timeoutError))
      by (unfold guessDrawing, tryBlock; rewrite H; reflexivity).
    unfold POST. rewrite (routeTry_valid _ _ W), G. reflexivity.
  - rewrite <- guessDrawing_hangs_iff.
    unfold POST. rewrite (routeTry_valid _ _ W).
    destruct (guessDrawing p image) as [r|t|]; simpl; split;
      intro H; try discriminate H; reflexivity.
Qed.

Lemma X14_gateway_timeout_witness :
  POST hungBackend (JsonValue (ImageText "iVBORw0KGgo="))
  = Return {| payload := ErrorPayload
                {| r_error := "Ollama API request timed out after 120 seconds";
                   r_code := Some "TIMEOUT" |};
              httpStatus := 504 |}
  /\ POST (stalledBody 20 200) (JsonValue (ImageText "iVBORw0KGgo=")) = Hangs.
Proof.
  split.
  - apply (proj1 (X14_gateway_timeout hungBackend "iVBORw0KGgo=" eq_refl)).
    exact I.
  - apply (proj2 (X14_gateway_timeout (stalledBody 20 200) "iVBORw0KGgo="
                    eq_refl)).
    exists {| status := 200; json := None |}. split; reflexivity.
Defined.

(** X15: the status of every answer of the route is one of 200, 400, 500,
    503 and 504, and the last resort of the handler, the answer "Internal
    server error" without a code, is given for a [null] body and for
    nothing else: no failure of [guessDrawing] ends there. *)
Theorem X15_statuses_and_last_resort (p : Platform) (request : RequestJson) :
  (forall response,
        POST p request = Return response ->
        In (httpStatus response) [200; 400; 500; 503; 504]%N)
  /\ (POST p request
      = Return {| payload := ErrorPayload {| r_error := "Internal server error";
                                             r_code := None |};
                  httpStatus := 500 |}
      <-> request = JsonNull).
Proof.
  split.
  - intros response H.
    destruct request as [x| |[image|]];
      try (unfold POST in H; simpl in H; injection H as <-; simpl; tauto).
    destruct (whitespaceOnly image) eqn:W.
    + destruct (routeTry_malformed p (JsonValue (ImageText image)) W) as [m E].
      unfold POST in H. rewrite E in H. injection H as <-. simpl. tauto.
    + unfold POST in H. rewrite (routeTry_valid _ _ W) in H.
      destruct (guessDrawing p image) as [r|t|] eqn:G; simpl in H;
        try discriminate; injection H as <-; [simpl; tauto|].
      destruct (guessDrawing_throws_ollama _ _ _ G) as [e ->]. simpl.
      destruct (getStatusCodeForError_range (code e)) as [E|[E|E]];
        rewrite E; tauto.
  - split; [|intros ->; reflexivity].
    intro H. destruct request as [x| |[image|]]; try reflexivity;
      try (unfold POST in H; simpl in H; injection H as H1; discriminate).
    exfalso. destruct (whitespaceOnly image) eqn:W.
    + destruct (routeTry_malformed p (JsonValue (ImageText image)) W) as [m E].
      unfold POST in H. rewrite E in H. discriminate.
    + unfold POST in H. rewrite (routeTry_valid _ _ W) in H.
      destruct (guessDrawing p image) as [r|t|] eqn:G; simpl in H;
        try discriminate.
      destruct (guessDrawing_throws_ollama _ _ _ G) as [e ->]. discriminate.
Qed.

Lemma X15_statuses_and_last_resort_witness :
  In (httpStatus {| payload := ErrorPayload
                      {| r_error := "Ollama API request timed out after 120 seconds";
                         r_code := Some "TIMEOUT" |};
                    httpStatus := 504 |})
     [200; 400; 500; 503; 504]%N.
Proof.
  apply (proj1 (X15_statuses_and_last_resort
                  hungBackend (JsonValue (ImageText "iVBORw0KGgo=")))).
  reflexivity.
Defined.

(* ===================================================================== *)
(** ** Properties of the drawing surface *)
(* ===================================================================== *)

Section CanvasFacts.

Variable Point : Type.
Variable ImageData : Type.
Variable strokePath : string -> Z -> list Point -> ImageData -> ImageData.
Variable white : ImageData.

(** What [push] and [shift] leave: the new snapshot on top of the old
    stack, or of its tail when the old stack was full. *)
Lemma saveState_stack (s : CanvasState Point ImageData) :
  pixels (saveState _ _ s) = pixels s
  /\ ((undoStack (saveState _ _ s) = (undoStack s ++ [pixels s])%list
       /\ List.length (undoStack s) < MAX_UNDO_STEPS)
      \/ (undoStack (saveState _ _ s) = (tl (undoStack s) ++ [pixels s])%list
          /\ MAX_UNDO_STEPS <= List.length (undoStack s))).
Proof.
  split; [reflexivity|]. unfold saveState. cbn [undoStack withUndoStack].
  destruct (MAX_UNDO_STEPS <? List.length (undoStack s ++ [pixels s]))%nat eqn:E.
  - apply Nat.ltb_lt in E. rewrite length_app in E. simpl in E.
    right. split; [|lia].
    destruct (undoStack s) as [|d st]; [unfold MAX_UNDO_STEPS in E; simpl in E; lia|].
    reflexivity.
  - apply Nat.ltb_ge in E. rewrite length_app in E. simpl in E.
    left. split; [reflexivity | lia].
Qed.

Lemma run_app (s : CanvasState Point ImageData) (es fs : list (CanvasEvent Point)) :
  canvasRun strokePath white s (es ++ fs) = canvasRun strokePath white (canvasRun strokePath white s es) fs.
Proof. apply fold_left_app. Qed.

Lemma moves_keep_stack (pts : list Point) (s : CanvasState Point ImageData) :
  undoStack (canvasRun strokePath white s (map (PointerMove Point) pts)) = undoStack s.
Proof.
  unfold canvasRun. revert s.
  induction pts as [|pt pts IH]; intro s; simpl; [reflexivity|].
  rewrite IH. unfold draw. now destruct (negb (isDrawing s)).
Qed.

Lemma stopDrawing_stack (s : CanvasState Point ImageData) :
  undoStack (stopDrawing _ _ s) = undoStack s.
Proof. unfold stopDrawing. now destruct (negb (isDrawing s)). Qed.

(** An action leaves on the stack what its snapshot left there. *)
Lemma action_stack (a : Action Point) (s : CanvasState Point ImageData) :
  undoStack (canvasRun strokePath white s (actionEvents a)) = undoStack (saveState _ _ s).
Proof.
  destruct a as [pt pts|]; [|reflexivity].
  unfold actionEvents, strokeEvents.
  change (PointerDown Point pt :: map (PointerMove Point) pts ++ [PointerUp])%list
    with ([PointerDown Point pt] ++ map (PointerMove Point) pts ++ [PointerUp])%list.
  rewrite !run_app. simpl. rewrite stopDrawing_stack.
  now rewrite moves_keep_stack.
Qed.

Lemma handleUndo_top (s : CanvasState Point ImageData) (st : list ImageData) (c d : ImageData) :
  undoStack s = ((st ++ [c]) ++ [d])%list ->
  pixels (handleUndo _ _ s) = c
  /\ undoStack (handleUndo _ _ s) = (st ++ [c])%list.
Proof.
  intro H. unfold handleUndo. rewrite H.
  assert (E : (List.length ((st ++ [c]) ++ [d]) <=? 1)%nat = false)
    by (apply Nat.leb_gt; rewrite !length_app; simpl; lia).
  rewrite E, removelast_last, last_last. auto.
Qed.

Lemma stack_bounds_step (s : CanvasState Point ImageData) (e : CanvasEvent Point) :
  1 <= List.length (undoStack s) <= MAX_UNDO_STEPS ->
  1 <= List.length (undoStack (canvasStep strokePath white s e)) <= MAX_UNDO_STEPS.
Proof.
  intro H.
  assert (Hsave : 1 <= List.length (undoStack (saveState _ _ s)) <= MAX_UNDO_STEPS).
  { unfold MAX_UNDO_STEPS in *.
    destruct (saveState_stack s) as [_ [[E L]|[E L]]];
      unfold MAX_UNDO_STEPS in L; rewrite E, length_app; simpl.
    - lia.
    - destruct (undoStack s) as [|d st]; simpl in *; lia. }
  unfold MAX_UNDO_STEPS in *.
  destruct e as [pt|pt| | | |c|n]; simpl; try exact Hsave; try exact H.
  - unfold draw. now destruct (negb (isDrawing s)).
  - now rewrite stopDrawing_stack.
  - unfold handleUndo.
    destruct (List.length (undoStack s) <=? 1)%nat eqn:L; [exact H|].
    apply Nat.leb_gt in L. cbn [undoStack withPixels withUndoStack].
    destruct (undoStack s) as [|d st] using rev_ind; [simpl in L; lia|].
    rewrite removelast_last. rewrite length_app in *. simpl in *. lia.
Qed.

End CanvasFacts.

Section CanvasProperties.

Variable Point : Type.
Variable ImageData : Type.
Variable strokePath : string -> Z -> list Point -> ImageData -> ImageData.
Variable white : ImageData.

(** X16: the undo stack is never empty and never holds more than
    [MAX_UNDO_STEPS] = 20 snapshots, whatever the user does after the
    component is mounted. *)
Theorem X16_undo_stack_bounds (es : list (CanvasEvent Point)) :
  1 <= List.length (undoStack (canvasRun strokePath white (mounted white) es))
    <= MAX_UNDO_STEPS.
Proof.
  assert (G : forall es (s : CanvasState Point ImageData),
             1 <= List.length (undoStack s) <= MAX_UNDO_STEPS ->
             1 <= List.length (undoStack (canvasRun strokePath white s es))
               <= MAX_UNDO_STEPS).
  { clear es. induction es as [|e es IH]; intros s H; [exact H|].
    simpl. apply IH. now apply stack_bounds_step. }
  apply G. unfold MAX_UNDO_STEPS. simpl. lia.
Qed.

(** X17: undo goes back two actions, not one.  After two actions in a row
    (each a stroke or a clear), one undo puts back the bitmap from before
    the first of them: the snapshot taken before the second action is
    dropped, not restored. *)
Theorem X17_undo_skips_an_action (s : CanvasState Point ImageData)
    (a1 a2 : Action Point) :
  pixels (canvasRun strokePath white s
            (actionEvents a1 ++ actionEvents a2 ++ [UndoClick]))
  = pixels s.
Proof.
  rewrite !run_app.
  set (s1 := canvasRun strokePath white s (actionEvents a1)).
  set (s2 := canvasRun strokePath white s1 (actionEvents a2)).
  assert (E1 : exists st, undoStack s1 = (st ++ [pixels s])%list).
  { unfold s1. rewrite action_stack.
    destruct (saveState_stack _ _ s) as [_ [[E _]|[E _]]]; rewrite E; eauto. }
  destruct E1 as [st E1].
  assert (E2 : exists st', undoStack s2 = ((st' ++ [pixels s]) ++ [pixels s1])%list).
  { unfold s2. rewrite action_stack.
    destruct (saveState_stack _ _ s1) as [_ [[E _]|[E L]]]; rewrite E, E1.
    - eauto.
    - destruct st as [|d st].
      + rewrite E1 in L. unfold MAX_UNDO_STEPS in L. simpl in L. lia.
      + exists st. reflexivity. }
  destruct E2 as [st' E2].
  simpl. exact (proj1 (handleUndo_top _ _ s2 st' _ _ E2)).
Qed.

(** X18: when undo is exact.  After mounting, and after every undo that
    changes something, the bitmap is the snapshot on top of the stack; in
    such a state with fewer than 20 snapshots, one action followed by undo
    puts back the bitmap and the stack as they were. *)
Theorem X18_undo_after_one_action (s : CanvasState Point ImageData)
    (a : Action Point) :
  settledCanvas (mounted (Point := Point) white)
  /\ (1 < List.length (undoStack s) -> settledCanvas (handleUndo _ _ s))
  /\ (settledCanvas s ->
      List.length (undoStack s) < MAX_UNDO_STEPS ->
      pixels (canvasRun strokePath white s (actionEvents a ++ [UndoClick]))
        = pixels s
      /\ undoStack (canvasRun strokePath white s (actionEvents a ++ [UndoClick]))
        = undoStack s).
Proof.
  split; [|split].
  - exists []. reflexivity.
  - intro L. unfold settledCanvas.
    destruct (undoStack s) as [|d st] eqn:E using rev_ind; [simpl in L; lia|].
    clear IHst.
    destruct st as [|c st] using rev_ind;
      [simpl in L; lia|]. clear IHst.
    destruct (handleUndo_top _ _ s st c d E) as [Hp Hs].
    exists st. now rewrite Hp, Hs.
  - intros [st Hst] L. rewrite run_app.
    set (s1 := canvasRun strokePath white s (actionEvents a)).
    assert (E1 : undoStack s1 = ((st ++ [pixels s]) ++ [pixels s])%list).
    { unfold s1. rewrite action_stack.
      destruct (saveState_stack _ _ s) as [_ [[E _]|[_ L']]]; [|lia].
      now rewrite E, Hst. }
    simpl. destruct (handleUndo_top _ _ s1 st _ _ E1) as [Hp Hs].
    now rewrite Hp, Hs, Hst.
Qed.

End CanvasProperties.

Lemma X18_undo_after_one_action_witness :
  pixels (canvasRun (fun _ _ path img => (path ++ img)%list) []
            (mounted (Point := nat) [])
            (actionEvents (Stroke nat 1 [2; 3]) ++ [UndoClick]))
  = pixels (mounted (Point := nat) (ImageData := list nat) []).
Proof.
  apply (X18_undo_after_one_action nat (list nat)
           (fun _ _ path img => (path ++ img)%list) []
           (mounted []) (Stroke nat 1 [2; 3])).
  - exists []. reflexivity.
  - unfold MAX_UNDO_STEPS. simpl. lia.
Defined.

Section ExportFacts.

Lemma allChars_impl (f g : ascii -> bool) (s : string) :
  (forall c, f c = true -> g c = true) ->
  allChars f s = true -> allChars g s = true.
Proof.
  intro H. induction s as [|c s IH]; simpl; [reflexivity|].
  intro E. apply andb_true_iff in E as [E1 E2].
  now rewrite (H _ E1), (IH E2).
Qed.

Lemma split_one_piece (sep : ascii) (s : string) :
  allChars (fun c => negb (Ascii.eqb c sep)) s = true -> split sep s = [s].
Proof.
  induction s as [|c s IH]; [reflexivity|]. simpl.
  intro H. apply andb_true_iff in H as [Hc Hs].
  apply negb_true_iff in Hc. now rewrite Hc, (IH Hs).
Qed.

Lemma split_first_piece (sep : ascii) (a b : string) :
  allChars (fun c => negb (Ascii.eqb c sep)) a = true ->
  split sep (a ++ String sep b) = a :: split sep b.
Proof.
  induction a as [|c a IH]; simpl.
  - intros _. now rewrite Ascii.eqb_refl.
  - intro H. apply andb_true_iff in H as [Hc Ha].
    apply negb_true_iff in Hc. now rewrite Hc, (IH Ha).
Qed.

Lemma base64_no_comma (c : ascii) :
  isBase64Char c = true -> negb (Ascii.eqb c ","%char) = true.
Proof.
  intro H. apply negb_true_iff.
  destruct (Ascii.eqb_spec c ","%char) as [->|]; [discriminate H | reflexivity].
Qed.

Lemma base64_no_header (payload : string) :
  allChars isBase64Char payload = true -> ~ hasDataUriPrefix payload.
Proof.
  intros H (mime & rest & _ & ->).
  cbn [append allChars] in H.
  do 4 (apply andb_true_iff in H as [_ H]).
  apply andb_true_iff in H as [H _]. discriminate H.
Qed.

End ExportFacts.

(** X19: the export of the canvas and the client agree.  For a PNG data
    URL with a base64 payload, [getImageBase64] returns the payload; the
    client leaves such a payload as it is, and it would reduce the whole
    data URL to the same payload. *)
Theorem X19_canvas_export_matches_strip (payload : string) :
  allChars isBase64Char payload = true ->
  getImageBase64 (Some ("data:image/png;base64," ++ payload)) = payload
  /\ stripDataUriPrefix payload = payload
  /\ stripDataUriPrefix ("data:image/png;base64," ++ payload) = payload.
Proof.
  intro H. split; [|split].
  - unfold getImageBase64.
    change ("data:image/png;base64," ++ payload)
      with ("data:image/png;base64" ++ String ","%char payload).
    rewrite split_first_piece by reflexivity.
    rewrite (split_one_piece ","%char payload)
      by (apply (allChars_impl isBase64Char); [apply base64_no_comma | exact H]).
    simpl. now destruct payload.
  - apply stripDataUriPrefix_other. now apply base64_no_header.
  - apply (stripDataUriPrefix_header "image/png" payload).
    split; [discriminate|].
    simpl. intros [E|[E|[E|[E|[E|[E|[E|[E|[E|[]]]]]]]]]]; discriminate E.
Qed.

Lemma X19_canvas_export_matches_strip_witness :
  getImageBase64 (Some ("data:image/png;base64," ++ "iVBORw0KGgo="))
  = "iVBORw0KGgo=".
Proof.
  apply (X19_canvas_export_matches_strip "iVBORw0KGgo="). reflexivity.
Defined.

(* ===================================================================== *)
(** ** Properties of the game page *)
(* ===================================================================== *)

Section TimerFacts.

Lemma sameTime_refl (a : option Z) : sameTime a a = true.
Proof. destruct a; simpl; [apply Z.eqb_refl | reflexivity]. Qed.

Lemma tick_disarmed (s : TimerState) :
  timerRef s = false -> timerStep s Tick = s.
Proof. intro H. unfold timerStep. now rewrite H, sameTime_refl. Qed.

Lemma ticks_disarmed (m : nat) (s : TimerState) :
  timerRef s = false -> timerRun s (repeat Tick m) = s.
Proof.
  intro H. induction m as [|m IH]; [reflexivity|].
  simpl. now rewrite (tick_disarmed _ H).
Qed.

Lemma timeoutEffect_other (s : TimerState) :
  timeRemaining s <> Some 0%Z -> timeoutEffect s = s.
Proof.
  unfold timeoutEffect. destruct (timeRemaining s) as [[|q|q]|]; congruence.
Qed.

Lemma timerInvariant_step (s : TimerState) (n : nat) (e : TimerEvent) :
  timerInvariant s n ->
  timerInvariant (timerStep s e) (n + (if isNewWord e then 1 else 0)).
Proof.
  intros (Hc & Hr & Ha & Hz).
  destruct s as [tr armed started submitted ts].
  cbn [timeRemaining timerRef hasTimerStarted hasSubmittedOnTimeout timeoutSubmits] in *.
  unfold timerInvariant, TIMER_DURATION in *.
  destruct e; unfold timerStep, isNewWord.
  - (* DrawingStart *)
    unfold handleDrawingStart.
    cbn [timeRemaining timerRef hasTimerStarted hasSubmittedOnTimeout timeoutSubmits].
    destruct started.
    + rewrite sameTime_refl.
      cbn [timeRemaining timerRef hasTimerStarted hasSubmittedOnTimeout timeoutSubmits].
      split; [lia|]. split; [exact Hr|]. split; [exact Ha | exact Hz].
    + rewrite timeoutEffect_other by (cbn; unfold TIMER_DURATION; discriminate).
      destruct (sameTime _ _);
      cbn [timeRemaining timerRef hasTimerStarted hasSubmittedOnTimeout timeoutSubmits];
      unfold TIMER_DURATION;
      (split; [lia|]; split; [lia|]; split; [|discriminate];
        intros _; exists 20%Z; split; [reflexivity | lia]).
  - (* Tick *)
    cbn [timeRemaining timerRef hasTimerStarted hasSubmittedOnTimeout timeoutSubmits].
    destruct armed.
    + destruct (Ha eq_refl) as (t & -> & Ht). unfold tick.
      cbn [timeRemaining timerRef hasTimerStarted hasSubmittedOnTimeout timeoutSubmits option_map].
      destruct (Z.leb_spec t 1) as [L|L].
      * assert (t = 1%Z) by lia. subst t.
        cbn [timeRemaining sameTime]. change (0 =? 1)%Z with false. cbv iota.
        unfold timeoutEffect.
        cbn [timeRemaining timerRef hasTimerStarted hasSubmittedOnTimeout timeoutSubmits].
        destruct submitted;
        cbn [timeRemaining timerRef hasTimerStarted hasSubmittedOnTimeout timeoutSubmits];
        (split; [lia|]; split; [lia|]; split; [discriminate | reflexivity]).
      * cbn [timeRemaining sameTime].
        destruct (Z.eqb_spec (t - 1) t) as [E|_]; [lia|].
        rewrite timeoutEffect_other
          by (cbn [timeRemaining]; intro E; injection E as E; lia).
        cbn [timeRemaining timerRef hasTimerStarted hasSubmittedOnTimeout timeoutSubmits].
        split; [lia|]. split; [lia|]. split.
        -- intros _. exists (t - 1)%Z. split; [reflexivity | lia].
        -- intro E; injection E as E; lia.
    + rewrite sameTime_refl.
      cbn [timeRemaining timerRef hasTimerStarted hasSubmittedOnTimeout timeoutSubmits].
      split; [lia|]. split; [exact Hr|]. split; [exact Ha | exact Hz].
  - (* NewWord *)
    unfold resetTimer.
    cbn [timeRemaining timerRef hasTimerStarted hasSubmittedOnTimeout timeoutSubmits].
    rewrite timeoutEffect_other by (cbn; discriminate).
    destruct (sameTime _ _);
    cbn [timeRemaining timerRef hasTimerStarted hasSubmittedOnTimeout timeoutSubmits];
    (split; [destruct submitted; lia|]; split; [exact I|]; split; discriminate).
Qed.

Lemma timerInvariant_run (es : list TimerEvent) (s : TimerState) (n : nat) :
  timerInvariant s n ->
  timerInvariant (timerRun s es) (n + List.length (filter isNewWord es)).
Proof.
  revert s n. induction es as [|e es IH]; intros s n H; simpl.
  - now rewrite Nat.add_0_r.
  - apply (timerInvariant_step _ _ e) in H. apply IH in H.
    destruct (isNewWord e); simpl; [|now rewrite Nat.add_0_r in H].
    now replace (n + S (List.length (filter isNewWord es)))
      with (n + 1 + List.length (filter isNewWord es)) by lia.
Qed.

End TimerFacts.

(** X20: the countdown.  From the first stroke on, after [k] seconds the
    page shows 20 - k, down to 0; the interval stays armed while the time
    is above 0; the timeout effect calls [handleSubmit] at the twentieth
    second and at no other; seconds after that change nothing. *)
Theorem X20_countdown (k : nat) :
  timerRun initialTimer (DrawingStart :: repeat Tick k)
  = {| timeRemaining := Some (Z.max 0 (TIMER_DURATION - Z.of_nat k));
       timerRef := (k <? 20)%nat;
       hasTimerStarted := true;
       hasSubmittedOnTimeout := (20 <=? k)%nat;
       timeoutSubmits := if (20 <=? k)%nat then 1 else 0 |}.
Proof.
  do 20 (destruct k as [|k]; [reflexivity|]).
  change (S (S (S (S (S (S (S (S (S (S (S (S (S (S (S (S (S (S (S (S k))))))))))))))))))))
    with (20 + k)%nat.
  change (DrawingStart :: repeat Tick (20 + k))
    with ((DrawingStart :: repeat Tick 20) ++ repeat Tick k)%list.
  unfold timerRun. rewrite fold_left_app.
  change (fold_left timerStep (DrawingStart :: repeat Tick 20) initialTimer)
    with {| timeRemaining := Some 0%Z; timerRef := false;
            hasTimerStarted := true; hasSubmittedOnTimeout := true;
            timeoutSubmits := 1 |}.
  fold (timerRun {| timeRemaining := Some 0%Z; timerRef := false;
                    hasTimerStarted := true; hasSubmittedOnTimeout := true;
                    timeoutSubmits := 1 |} (repeat Tick k)).
  rewrite ticks_disarmed by reflexivity.
  replace (Z.max 0 (TIMER_DURATION - Z.of_nat (20 + k))) with 0%Z
    by (unfold TIMER_DURATION; lia).
  reflexivity.
Qed.

(** X21: whatever the order of strokes, seconds and new words, the timeout
    effect submits at most once per word (once more than the number of new
    words asked for), the time shown stays between 0 and 20, and the
    interval is armed only while at least one second is left. *)
Theorem X21_at_most_one_timeout_submit (es : list TimerEvent) :
  timeoutSubmits (timerRun initialTimer es)
    <= 1 + List.length (filter isNewWord es)
  /\ match timeRemaining (timerRun initialTimer es) with
     | None => True
     | Some t => (0 <= t <= 20)%Z
     end
  /\ (timerRef (timerRun initialTimer es) = true ->
      exists t, timeRemaining (timerRun initialTimer es) = Some t /\ (1 <= t)%Z).
Proof.
  assert (H0 : timerInvariant initialTimer 0).
  { unfold timerInvariant. simpl. split; [lia|]. split; [exact I|].
    split; discriminate. }
  destruct (timerInvariant_run es _ _ H0) as (Hc & Hr & Ha & _).
  split; [|split; [exact Hr | exact Ha]].
  destruct (hasSubmittedOnTimeout (timerRun initialTimer es)); lia.
Qed.

Lemma X21_at_most_one_timeout_submit_witness :
  exists t,
    timeRemaining (timerRun initialTimer [DrawingStart; Tick; Tick]) = Some t
    /\ (1 <= t)%Z.
Proof.
  apply (proj2 (proj2 (X21_at_most_one_timeout_submit [DrawingStart; Tick; Tick]))).
  reflexivity.
Defined.

Section SubmitFacts.

Lemma httpFailure_message (status : N) (m : string) :
  truthy (message (httpFailure status m)) = true.
Proof.
  unfold httpFailure.
  destruct (status =? 404)%N; [|destruct (status =? 500)%N]; reflexivity.
Qed.

Lemma catchBlock_platform_message (x : PlatformError) :
  truthy (message (catchBlock (ThrownByPlatform x))) = true.
Proof.
  destruct x as [isTypeError name msg|rendered]; simpl; [|reflexivity].
  destruct (String.eqb name "AbortError"); [reflexivity|].
  now destruct isTypeError.
Qed.

(** Every failure of [guessDrawing] has a message. *)
Lemma guessDrawing_failure_message (p : Platform) (img : string)
    (e : OllamaError) :
  guessDrawing p img = Throw (ThrownOllamaError e) ->
  truthy (message e) = true.
Proof.
  unfold guessDrawing.
  destruct (tryBlock p (buildRequest img)) as [r|[e'|x]|] eqn:E;
    try discriminate; intro H; injection H as <-.
  - revert E. unfold tryBlock.
    destruct (settled (exchange p (buildRequest img))) as [resp|x];
      simpl; [|discriminate].
    destruct (ok resp); simpl.
    + destruct (json resp) as [[d|x]|]; simpl; try discriminate.
      intro H. apply normalizeResponse_throws in H. now injection H as ->.
    + destruct (readErrorMessage resp) as [m|t|] eqn:R; simpl;
        try discriminate.
      * intro H. injection H as <-. apply httpFailure_message.
      * now apply readErrorMessage_no_throw in R.
  - apply catchBlock_platform_message.
Qed.

Lemma error_status_not_ok (code : string) (pl : Payload) :
  answerOk {| payload := pl; httpStatus := getStatusCodeForError code |} = false.
Proof.
  unfold answerOk. simpl.
  destruct (getStatusCodeForError_range code) as [E|[E|E]]; now rewrite E.
Qed.

End SubmitFacts.

(** X22: what the player sees.  With the route served in front of a
    backend and an exported image with text in it, one submission ends with
    the loading flag off and: for a result of [guessDrawing], that guess,
    confidence and duration on top of the list and no error shown; for a
    failure of [guessDrawing], the list as it was and the message of that
    failure shown. *)
Theorem X22_submission_end_to_end (p : Platform) (api : string -> ApiOutcome)
    (img : string) (now : Z) (s : SubmitState) :
  servedBy p api ->
  whitespaceOnly img = false ->
  (forall r,
      guessDrawing p img = Return r ->
      handleSubmit (Some img) api now s
      = {| guesses := {| shownGuess := Some (guess r);
                         shownConfidence := Some (confidenceText (confidence r));
                         shownDuration := Some (duration_ms r);
                         timestamp := now |} :: guesses s;
           isLoading := false;
           pageError := None |})
  /\ (forall e,
        guessDrawing p img = Throw (ThrownOllamaError e) ->
        handleSubmit (Some img) api now s
        = {| guesses := guesses s;
             isLoading := false;
             pageError := Some (message e) |}).
Proof.
  intros Hserved W.
  assert (T : truthy img = true) by (destruct img; [discriminate | reflexivity]).
  split.
  - intros r G.
    assert (A : api img = ApiAnswered
                  {| payload := GuessPayload
                       {| r_guess := guess r;
                          r_confidence := confidenceText (confidence r);
                          r_duration_ms := duration_ms r |};
                     httpStatus := 200 |}).
    { apply Hserved. unfold POST. now rewrite (routeTry_valid _ _ W), G. }
    unfold handleSubmit. rewrite T, A. reflexivity.
  - intros e G.
    assert (A : api img = ApiAnswered
                  {| payload := ErrorPayload {| r_error := message e;
                                                r_code := Some (code e) |};
                     httpStatus := getStatusCodeForError (code e) |}).
    { apply Hserved. unfold POST. now rewrite (routeTry_valid _ _ W), G. }
    unfold handleSubmit. rewrite T, A. simpl negb at 1. cbv iota.
    rewrite error_status_not_ok. simpl negb. cbv iota.
    unfold errorText. simpl.
    now rewrite (guessDrawing_failure_message _ _ _ G).
Qed.

Lemma X22_submission_end_to_end_witness :
  handleSubmit (Some "iVBORw0KGgo=")
    (fun image =>
       match POST hungBackend (JsonValue (ImageText image)) with
       | Return response => ApiAnswered response
       | _ => ApiUnreachable
       end)
    1700000000000
    {| guesses := []; isLoading := false; pageError := None |}
  = {| guesses := [];
       isLoading := false;
       pageError := Some "Ollama API request timed out after 120 seconds" |}.
Proof.
  apply (proj2 (X22_submission_end_to_end hungBackend
                  (fun image =>
                     match POST hungBackend (JsonValue (ImageText image)) with
                     | Return response => ApiAnswered response
                     | _ => ApiUnreachable
                     end)
                  "iVBORw0KGgo=" 1700000000000
                  {| guesses := []; isLoading := false; pageError := None |}
                  ltac:(intros image response H; now rewrite H)
                  eq_refl) timeoutError).
  reflexivity.
Defined.

(* ===================================================================== *)
(** ** Lines and white space *)
(* ===================================================================== *)

Section LineFacts.

Lemma split_append (sep : ascii) (a b : string) :
  split sep (a ++ String sep b) = (split sep a ++ split sep b)%list.
Proof.
  induction a as [|c a IH]; simpl.
  - now rewrite Ascii.eqb_refl.
  - destruct (Ascii.eqb c sep); [now rewrite IH|].
    rewrite IH. destruct (split sep a) as [|h t] eqn:E;
      [now apply split_not_nil in E | reflexivity].
Qed.

Lemma candidateLines_append (a b : string) :
  candidateLines (a ++ nl ++ b) = (candidateLines a ++ candidateLines b)%list.
Proof.
  unfold candidateLines. simpl append.
  now rewrite split_append, map_app, filter_app.
Qed.

Lemma trimEnd_trailing (x ws : string) :
  whitespaceOnly ws = true -> trimEnd (x ++ ws) = trimEnd x.
Proof.
  intro H. induction x as [|c x IH]; simpl.
  - now apply trimEnd_empty_iff.
  - now rewrite IH.
Qed.

Lemma trimStart_append (l ws : string) :
  trimStart l <> "" -> trimStart (l ++ ws) = trimStart l ++ ws.
Proof.
  induction l as [|c l IH]; simpl; [congruence|].
  destruct (isWhiteSpace c); [exact IH | reflexivity].
Qed.

Lemma trim_trailing (l ws : string) :
  whitespaceOnly ws = true -> trim (l ++ ws) = trim l.
Proof.
  intro H. unfold trim.
  destruct (string_dec (trimStart l) "") as [E|E].
  - assert (W : whitespaceOnly (l ++ ws) = true).
    { apply trimStart_empty_iff in E. clear -E H.
      induction l as [|c l IH]; simpl in *; [exact H|].
      apply andb_true_iff in E as [Ec El]. now rewrite Ec, IH. }
    apply trimStart_empty_iff in W. now rewrite W, E.
  - rewrite (trimStart_append _ _ E). now apply trimEnd_trailing.
Qed.

(** One more white-space character at the end of a text changes none of
    its candidate lines. *)
Lemma candidateLines_trailing_char (c : ascii) (a : string) :
  isWhiteSpace c = true ->
  candidateLines (a ++ String c "") = candidateLines a.
Proof.
  intro W. destruct (Ascii.eqb_spec c LF) as [->|Hc].
  - change (a ++ String LF "") with (a ++ nl ++ "").
    rewrite candidateLines_append. apply app_nil_r.
  - unfold candidateLines.
    assert (G : exists front lst,
               split LF a = (front ++ [lst])%list
               /\ split LF (a ++ String c "") = (front ++ [(lst ++ String c "")%string])%list).
    { induction a as [|d a (front & lst & E1 & E2)]; simpl.
      - apply Ascii.eqb_neq in Hc. rewrite Hc. now exists [], "".
      - destruct (Ascii.eqb d LF).
        + exists ("" :: front), lst. now rewrite E1, E2.
        + rewrite E1, E2. destruct front as [|h t]; simpl.
          * now exists [], (String d lst).
          * now exists (String d h :: t), lst. }
    destruct G as (front & lst & -> & ->).
    rewrite !map_app, !filter_app. simpl map.
    rewrite trim_trailing; [reflexivity|]. simpl. now rewrite W.
Qed.

Lemma candidateLines_trailing (a ws : string) :
  whitespaceOnly ws = true -> candidateLines (a ++ ws) = candidateLines a.
Proof.
  revert a. induction ws as [|c ws IH]; intros a H.
  - now rewrite append_empty_r.
  - simpl in H. apply andb_true_iff in H as [Hc Hws].
    change (a ++ String c ws) with (a ++ String c "" ++ ws).
    rewrite <- append_assoc, (IH _ Hws).
    now apply candidateLines_trailing_char.
Qed.

Lemma candidateLines_leading (ws a : string) :
  whitespaceOnly ws = true -> candidateLines (ws ++ a) = candidateLines a.
Proof.
  induction ws as [|c ws IH]; intro H; [reflexivity|].
  simpl in H. apply andb_true_iff in H as [Hc Hws].
  rewrite <- (IH Hws). unfold candidateLines. simpl.
  destruct (Ascii.eqb c LF); [reflexivity|].
  destruct (split LF (ws ++ a)) as [|h t] eqn:E;
    [now apply split_not_nil in E|].
  simpl. now rewrite (trim_skip _ _ Hc).
Qed.

End LineFacts.

(** X23: the reply is read line by line and white space is not part of a
    line.  The candidate lines of two texts joined by a line break are
    those of the first followed by those of the second; white space in
    front of a text, behind it, or in front of a line break (a carriage
    return, trailing blanks, blank lines) changes no candidate line. *)
Theorem X23_lines_and_white_space (a b ws : string) :
  candidateLines (a ++ nl ++ b) = (candidateLines a ++ candidateLines b)%list
  /\ (whitespaceOnly ws = true ->
      candidateLines (ws ++ a) = candidateLines a
      /\ candidateLines (a ++ ws) = candidateLines a
      /\ candidateLines (a ++ ws ++ nl ++ b) = candidateLines (a ++ nl ++ b)).
Proof.
  split; [apply candidateLines_append|].
  intro H. split; [now apply candidateLines_leading|].
  split; [now apply candidateLines_trailing|].
  rewrite <- append_assoc, !candidateLines_append.
  now rewrite candidateLines_trailing.
Qed.

Lemma X23_lines_and_white_space_witness :
  candidateLines ("cat" ++ String (ascii_of_N 13) " " ++ nl ++ "high")
  = candidateLines ("cat" ++ nl ++ "high").
Proof.
  apply (proj2 (X23_lines_and_white_space "cat" "high"
                  (String (ascii_of_N 13) " "))).
  reflexivity.
Defined.

(** X24: which field is the reply.  The text handed to the parser is
    [message.content] without the white space around it whenever that
    field has text, whatever [response] holds; [response] is read only
    when [message.content] is absent or blank.  The text handed over never
    has white space around it. *)
Theorem X24_reply_field_preference (data : OllamaResponse) :
  (forall m, messageText data = Some m -> whitespaceOnly m = false ->
             extractResponseContent data = trim m)
  /\ (blankField (messageText data) ->
      extractResponseContent data
      = match response data with Some r => trim r | None => "" end)
  /\ trim (extractResponseContent data) = extractResponseContent data.
Proof.
  unfold extractResponseContent, messageText, blankField.
  split; [|split].
  - intros m Hm W. destruct (reply_message data) as [msg|]; [|discriminate].
    rewrite Hm. destruct (trim m) eqn:E; [|reflexivity].
    apply trim_empty_iff in E. congruence.
  - intro B.
    assert (E : match reply_message data with
                | Some m => match content m with Some c => trim c | None => "" end
                | None => ""
                end = "").
    { destruct (reply_message data) as [msg|]; [|reflexivity].
      destruct (content msg) as [c|]; [|reflexivity].
      now apply trim_empty_iff. }
    rewrite E. simpl. destruct (response data) as [r|]; [|reflexivity].
    now destruct (trim r).
  - destruct (reply_message data) as [[[c|]]|]; simpl;
      destruct (response data) as [r|]; simpl;
      try destruct (trim c) eqn:Ec; try destruct (trim r) eqn:Er; simpl;
      try reflexivity;
      first [rewrite <- Ec; apply trim_idem | rewrite <- Er; apply trim_idem].
Qed.

Lemma X24_reply_field_preference_witness :
  extractResponseContent
    {| model := "qwen3-vl";
       reply_message := Some {| content := Some "  " |};
       response := Some (" sun" ++ nl ++ "LOW ");
       done := Some true;
       total_duration := None |}
  = trim (" sun" ++ nl ++ "LOW ").
Proof.
  apply (proj1 (proj2 (X24_reply_field_preference
           {| model := "qwen3-vl";
              reply_message := Some {| content := Some "  " |};
              response := Some (" sun" ++ nl ++ "LOW ");
              done := Some true;
              total_duration := None |}))).
  reflexivity.
Defined.
